(** * Reconciliation rules of [rules.py]

    A shallow embedding of the source hierarchy ([DataSource]), the
    confirmation policy ([ConfirmationStatus], [DataRules]) and the
    reconciler ([select_most_relevant_data]), followed by the properties
    claimed for them.

    Conventions of the embedding:
    - a Python exception is a value of [exn]; a computation that may raise
      has type [result A];
    - a [datetime] is a point on the integer time line ([Z], e.g. the number
      of microseconds since an epoch), compared with [<]; module [Dated]
      has the selection on datetimes that are naive or aware, where [<]
      may raise;
    - a data point (a dict with keys ['data'], ['source'], ['timestamp']) is
      a record, polymorphic in the type of its payload;
    - a Python dict is an association list kept in insertion order;
    - [sorted] is a stable sort on precomputed keys, [min] keeps the first
      minimal element. *)

From Stdlib Require Import List ZArith Lia Bool Arith Permutation.
From Stdlib Require String.
Import ListNotations.

(** ** Exceptions and fallible computations *)

Inductive exn : Type :=
| ValueError_empty_input   (* raise ValueError("Список данных не может быть пустым") *)
| ValueError_not_in_list   (* list.index(x) when x is not in the list *)
| KeyError                 (* d[k] when k is not a key of d *)
| ValueError_min_empty     (* min() of an empty iterable *)
| IndexError               (* l[0] on an empty list *)
| TypeError.               (* a < b between a naive and an aware datetime *)

(** The names the specification gives to the failure conditions. *)
Definition EmptyInput : exn := ValueError_empty_input.
Definition UnknownSource : exn := ValueError_not_in_list.
Definition UnmappedSource : exn := KeyError.

Inductive result (A : Type) : Type :=
| Ok (a : A)
| Raise (e : exn).

Arguments Ok {A} a.
Arguments Raise {A} e.

Definition bind {A B : Type} (m : result A) (k : A -> result B) : result B :=
  match m with
  | Ok a => k a
  | Raise e => Raise e
  end.

Notation "x <- m ;; k" := (bind m (fun x => k))
  (at level 61, m at next level, right associativity).

(** ** Python built-ins used by the module *)

Module Py.

Section Lists.
Context {A : Type}.

(** [l.index(x)] *)
Fixpoint index (eqb : A -> A -> bool) (x : A) (l : list A) : result nat :=
  match l with
  | [] => Raise ValueError_not_in_list
  | y :: l' =>
      if eqb y x then Ok 0
      else i <- index eqb x l' ;; Ok (S i)
  end.

(** [l[0]] *)
Definition item0 (l : list A) : result A :=
  match l with
  | [] => Raise IndexError
  | x :: _ => Ok x
  end.

(** [[f(x) for x in l]], [f] may raise. *)
Fixpoint mapM {B : Type} (f : A -> result B) (l : list A) : result (list B) :=
  match l with
  | [] => Ok []
  | x :: l' =>
      y <- f x ;;
      ys <- mapM f l' ;;
      Ok (y :: ys)
  end.

(** [[x for x in l if p(x)]], [p] may raise. *)
Fixpoint filterM (p : A -> result bool) (l : list A) : result (list A) :=
  match l with
  | [] => Ok []
  | x :: l' =>
      b <- p x ;;
      r <- filterM p l' ;;
      Ok (if b then x :: r else r)
  end.

(** [for x in l: s = step(s, x)] *)
Fixpoint for_each {S : Type} (step : S -> A -> result S) (l : list A) (s : S)
  : result S :=
  match l with
  | [] => Ok s
  | x :: l' => s' <- step s x ;; for_each step l' s'
  end.

(** The scan of [min(iterable, key=...)]: the running minimum is replaced
    only by a strictly smaller key. *)
Fixpoint min_scan (key : A -> result nat) (l : list A) (best : A) (kbest : nat)
  : result A :=
  match l with
  | [] => Ok best
  | x :: l' =>
      kx <- key x ;;
      if kx <? kbest then min_scan key l' x kx
      else min_scan key l' best kbest
  end.

(** [min(l, key=key)] *)
Definition min_by (key : A -> result nat) (l : list A) : result A :=
  match l with
  | [] => Raise ValueError_min_empty
  | x :: l' => kx <- key x ;; min_scan key l' x kx
  end.
End Lists.

Section Sorting.
Context {A K : Type}.
Variable ltb : K -> K -> bool.

(** Stable insertion of a keyed element in front of a sorted list: the new
    element passes only the elements whose key is strictly before its own. *)
Fixpoint insert (x : K * A) (l : list (K * A)) : list (K * A) :=
  match l with
  | [] => [x]
  | y :: l' => if ltb (fst y) (fst x) then y :: insert x l' else x :: y :: l'
  end.

Fixpoint stable_sort (l : list (K * A)) : list (K * A) :=
  match l with
  | [] => []
  | x :: l' => insert x (stable_sort l')
  end.
End Sorting.

(** [sorted(l, key=key, reverse=reverse)]: the keys are computed first, the
    elements are then ordered by their keys alone, equal keys keep their
    original order, and [reverse] reverses every comparison. *)
Definition sorted {A K : Type} (ltb : K -> K -> bool) (key : A -> result K)
    (reverse : bool) (l : list A) : result (list A) :=
  keyed <- mapM (fun x => k <- key x ;; Ok (k, x)) l ;;
  Ok (map snd
        (stable_sort (if reverse then fun a b => ltb b a else ltb) keyed)).

End Py.

(** A dict as an association list in insertion order. *)
Module Dict.
Section Dict.
Context {K V : Type}.
Variable eqb : K -> K -> bool.

(** [k in d] *)
Fixpoint contains (k : K) (d : list (K * V)) : bool :=
  match d with
  | [] => false
  | (k', _) :: d' => if eqb k' k then true else contains k d'
  end.

(** [d[k]] *)
Fixpoint get (k : K) (d : list (K * V)) : result V :=
  match d with
  | [] => Raise KeyError
  | (k', v) :: d' => if eqb k' k then Ok v else get k d'
  end.

(** [d[k] = v] *)
Fixpoint set (k : K) (v : V) (d : list (K * V)) : list (K * V) :=
  match d with
  | [] => [(k, v)]
  | (k', v') :: d' =>
      if eqb k' k then (k', v) :: d' else (k', v') :: set k v d'
  end.

(** [d.keys()] *)
Definition keys (d : list (K * V)) : list K := map fst d.
End Dict.
End Dict.

(** ** [class DataSource(Enum)] *)

Module DataSource.

Inductive t : Type :=
| FSIN
| ROSSTAT
| AUDIT_RU
| MANUAL_CONFIRMED
| MANUAL_UNCONFIRMED.

Definition eqb (a b : t) : bool :=
  match a, b with
  | FSIN, FSIN
  | ROSSTAT, ROSSTAT
  | AUDIT_RU, AUDIT_RU
  | MANUAL_CONFIRMED, MANUAL_CONFIRMED
  | MANUAL_UNCONFIRMED, MANUAL_UNCONFIRMED => true
  | _, _ => false
  end.

(** The members of the enumeration, in declaration order. *)
Definition members : list t :=
  [FSIN; ROSSTAT; AUDIT_RU; MANUAL_CONFIRMED; MANUAL_UNCONFIRMED].

Definition hierarchy_order : list t :=
  [FSIN; ROSSTAT; AUDIT_RU; MANUAL_CONFIRMED; MANUAL_UNCONFIRMED].

Definition get_hierarchy_priority (source : t) : result nat :=
  Py.index eqb source hierarchy_order.

End DataSource.

(** ** [class ConfirmationStatus(Enum)] *)

Module ConfirmationStatus.

Inductive t : Type :=
| CONFIRMED
| MANUAL_CONFIRMED
| MANUAL_UNCONFIRMED.

Definition eqb (a b : t) : bool :=
  match a, b with
  | CONFIRMED, CONFIRMED
  | MANUAL_CONFIRMED, MANUAL_CONFIRMED
  | MANUAL_UNCONFIRMED, MANUAL_UNCONFIRMED => true
  | _, _ => false
  end.

Definition members : list t :=
  [CONFIRMED; MANUAL_CONFIRMED; MANUAL_UNCONFIRMED].

Definition confirmation_order : list t :=
  [CONFIRMED; MANUAL_CONFIRMED; MANUAL_UNCONFIRMED].

Definition get_confirmation_priority (status : t) : result nat :=
  Py.index eqb status confirmation_order.

End ConfirmationStatus.

(** ** [class DataRules] *)

Module DataRules.

Definition SOURCE_TO_CONFIRMATION
  : list (DataSource.t * ConfirmationStatus.t) :=
  [ (DataSource.FSIN, ConfirmationStatus.CONFIRMED);
    (DataSource.ROSSTAT, ConfirmationStatus.CONFIRMED);
    (DataSource.AUDIT_RU, ConfirmationStatus.CONFIRMED);
    (DataSource.MANUAL_CONFIRMED, ConfirmationStatus.MANUAL_CONFIRMED);
    (DataSource.MANUAL_UNCONFIRMED, ConfirmationStatus.MANUAL_UNCONFIRMED) ].

Definition get_confirmation_status (source : DataSource.t)
  : result ConfirmationStatus.t :=
  Dict.get DataSource.eqb source SOURCE_TO_CONFIRMATION.

Definition compare_data_sources (source1 source2 : DataSource.t) : result Z :=
  priority1 <- DataSource.get_hierarchy_priority source1 ;;
  priority2 <- DataSource.get_hierarchy_priority source2 ;;
  if priority1 <? priority2 then Ok (-1)%Z
  else if priority2 <? priority1 then Ok 1%Z
  else Ok 0%Z.

Definition compare_confirmation_status (status1 status2 : ConfirmationStatus.t)
  : result Z :=
  priority1 <- ConfirmationStatus.get_confirmation_priority status1 ;;
  priority2 <- ConfirmationStatus.get_confirmation_priority status2 ;;
  if priority1 <? priority2 then Ok (-1)%Z
  else if priority2 <? priority1 then Ok 1%Z
  else Ok 0%Z.

End DataRules.

(** ** Data points and [select_most_relevant_data] *)

Record data_point (V : Type) : Type := mk_point {
  data : V;
  source : DataSource.t;
  timestamp : Z
}.

Arguments mk_point {V} data source timestamp.
Arguments data {V} d.
Arguments source {V} d.
Arguments timestamp {V} d.

Section Select.
Context {V : Type}.

Definition groups : Type :=
  list (ConfirmationStatus.t * list (data_point V)).

(** The body of the grouping loop (step 1). *)
Definition group_step (confirmation_groups : groups) (point : data_point V)
  : result groups :=
  status <- DataRules.get_confirmation_status (source point) ;;
  let confirmation_groups :=
    if Dict.contains ConfirmationStatus.eqb status confirmation_groups
    then confirmation_groups
    else Dict.set ConfirmationStatus.eqb status [] confirmation_groups in
  members <- Dict.get ConfirmationStatus.eqb status confirmation_groups ;;
  Ok (Dict.set ConfirmationStatus.eqb status (members ++ [point])
        confirmation_groups).

Definition select_most_relevant_data (data_points : list (data_point V))
  : result (data_point V) :=
  match data_points with
  | [] => Raise ValueError_empty_input
  | _ :: _ =>
      (* steps 1 and 2 *)
      confirmation_groups <- Py.for_each group_step data_points [] ;;
      best_confirmation <-
        Py.min_by ConfirmationStatus.get_confirmation_priority
          (Dict.keys confirmation_groups) ;;
      candidates <-
        Dict.get ConfirmationStatus.eqb best_confirmation confirmation_groups ;;
      (* step 3 *)
      if length candidates =? 1 then Py.item0 candidates
      else
        (* step 4 *)
        source_priority_candidates <-
          Py.sorted Nat.ltb
            (fun x => DataSource.get_hierarchy_priority (source x))
            false candidates ;;
        (* step 5 *)
        first <- Py.item0 source_priority_candidates ;;
        best_source_priority <-
          DataSource.get_hierarchy_priority (source first) ;;
        best_source_candidates <-
          Py.filterM
            (fun candidate =>
               p <- DataSource.get_hierarchy_priority (source candidate) ;;
               Ok (p =? best_source_priority))
            source_priority_candidates ;;
        (* step 6 *)
        if length best_source_candidates =? 1
        then Py.item0 best_source_candidates
        else
          (* step 7 *)
          final_candidates <-
            Py.sorted Z.ltb (fun x => Ok (timestamp x)) true
              best_source_candidates ;;
          Py.item0 final_candidates
  end.
End Select.

(** ** Sample inputs *)

(** The demonstration data of the module; the hours of 2024-01-01 stand for
    the timestamps. *)
Definition test_data : list (data_point Z) :=
  [ mk_point 100%Z DataSource.MANUAL_UNCONFIRMED 10%Z;
    mk_point 200%Z DataSource.ROSSTAT 9%Z;
    mk_point 150%Z DataSource.FSIN 8%Z ].


(** Three data points of one source, the latest timestamp met twice. *)
Definition tied_data : list (data_point Z) :=
  [ mk_point 1%Z DataSource.ROSSTAT 5%Z;
    mk_point 2%Z DataSource.ROSSTAT 7%Z;
    mk_point 3%Z DataSource.ROSSTAT 7%Z ].


(** Confirmed sources of several ranks. *)
Definition confirmed_data : list (data_point Z) :=
  [ mk_point 1%Z DataSource.AUDIT_RU 9%Z;
    mk_point 2%Z DataSource.ROSSTAT 3%Z;
    mk_point 3%Z DataSource.ROSSTAT 4%Z ].

(** ** Vocabulary of the specification *)

(** The rank of a source, the status of a source and the rank of a status,
    read off the fallible look-ups of the code. *)
Definition rank (s : DataSource.t) : nat :=
  match DataSource.get_hierarchy_priority s with
  | Ok n => n
  | Raise _ => 0
  end.

Definition status_of (s : DataSource.t) : ConfirmationStatus.t :=
  match DataRules.get_confirmation_status s with
  | Ok c => c
  | Raise _ => ConfirmationStatus.CONFIRMED
  end.

Definition status_rank (c : ConfirmationStatus.t) : nat :=
  match ConfirmationStatus.get_confirmation_priority c with
  | Ok n => n
  | Raise _ => 0
  end.

Definition source_rank {V : Type} (p : data_point V) : nat :=
  rank (source p).

Definition confirmation_rank {V : Type} (p : data_point V) : nat :=
  status_rank (status_of (source p)).

Section Best.
Context {A : Type}.
Variable f : A -> nat.

(** The least value of [f] over the non-empty list [x :: l]. *)
Fixpoint minimum (x : A) (l : list A) : nat :=
  match l with
  | [] => f x
  | y :: l' => Nat.min (f x) (minimum y l')
  end.

(** The members of [l] on which [f] is least, in the order of [l]. *)
Definition best_by (l : list A) : list A :=
  match l with
  | [] => []
  | x :: l' => filter (fun p => f p =? minimum x l') l
  end.
End Best.

Section Recency.
Context {V : Type}.

(** The member of [x :: l] with the latest timestamp, the earliest one in
    the list when several share it. *)
Fixpoint latest (x : data_point V) (l : list (data_point V)) : data_point V :=
  match l with
  | [] => x
  | y :: l' =>
      let b := latest y l' in
      if (timestamp x <? timestamp b)%Z then b else x
  end.

Definition latest_of (l : list (data_point V)) : option (data_point V) :=
  match l with
  | [] => None
  | x :: l' => Some (latest x l')
  end.

(** [r] stands at position [i] of [l], no member of [l] is later than [r],
    and every member before position [i] is strictly earlier. *)
Definition latest_earliest_at (l : list (data_point V)) (i : nat)
    (r : data_point V) : Prop :=
  nth_error l i = Some r /\
  (forall y, In y l -> (timestamp y <= timestamp r)%Z) /\
  (forall j y, j < i -> nth_error l j = Some y ->
               (timestamp y < timestamp r)%Z).

(** The simpler procedure: restrict to the observations of minimal source
    rank, then take the latest one, the earliest in input order on ties. *)
Definition select_by_source_then_recency (l : list (data_point V))
  : option (data_point V) :=
  latest_of (best_by source_rank l).

(** The cascade of the three levels: confirmation status, then source rank,
    then recency. *)
Definition cascade (l : list (data_point V)) : option (data_point V) :=
  latest_of (best_by source_rank (best_by confirmation_rank l)).
End Recency.

Section GroupingInvariant.
Context {V : Type}.

(** The members of [l] whose source has confirmation status [c]. *)
Definition members_of (c : ConfirmationStatus.t) (l : list (data_point V))
  : list (data_point V) :=
  filter (fun p => ConfirmationStatus.eqb (status_of (source p)) c) l.

(** Invariant of the grouping loop: the dict built from the prefix [l] of
    the input holds, for every status
    met in [l], the members of [l] with that status in input order, and has
    no other key. *)
Definition grouped (d : @groups V) (l : list (data_point V)) : Prop :=
  forall c,
    match members_of c l with
    | [] => Dict.contains ConfirmationStatus.eqb c d = false
    | m => Dict.contains ConfirmationStatus.eqb c d = true /\
           Dict.get ConfirmationStatus.eqb c d = Ok m
    end.
End GroupingInvariant.

(** Positions: every data point is tagged with its index in the input, as
    the identity of the dict object it stands for, and the selection is run
    on the tagged list. *)
Definition retag {V W : Type} (g : V -> W) (p : data_point V) : data_point W :=
  mk_point (g (data p)) (source p) (timestamp p).

Fixpoint tag_from {V : Type} (i : nat) (l : list (data_point V))
  : list (data_point (nat * V)) :=
  match l with
  | [] => []
  | p :: l' => retag (fun v => (i, v)) p :: tag_from (S i) l'
  end.

Definition tag_positions {V : Type} (l : list (data_point V))
  : list (data_point (nat * V)) :=
  tag_from 0 l.

Definition select_position {V : Type} (l : list (data_point V)) : result nat :=
  r <- select_most_relevant_data (tag_positions l) ;;
  Ok (fst (data r)).

(** ** [select_most_relevant_data] on [datetime] timestamps

    A [datetime] is naive or aware, and [<] between a naive and an aware
    one raises [TypeError].  The selection above reads a timestamp as a
    point of the time line, which is what the comparison yields between
    datetimes of one kind; here the timestamps are the datetimes themselves
    and the sort of step 7 compares them with [lt]. *)

Module Dated.

Inductive datetime : Type :=
| Naive (t : Z)   (* no tzinfo; [t] is the wall-clock reading *)
| Aware (t : Z).  (* with tzinfo; [t] is the instant *)

Definition is_aware (d : datetime) : bool :=
  match d with
  | Naive _ => false
  | Aware _ => true
  end.

Definition instant (d : datetime) : Z :=
  match d with
  | Naive t => t
  | Aware t => t
  end.

(** [a < b] *)
Definition lt (a b : datetime) : result bool :=
  match a, b with
  | Naive x, Naive y => Ok (x <? y)%Z
  | Aware x, Aware y => Ok (x <? y)%Z
  | _, _ => Raise TypeError
  end.

Section Sorting.
Context {A K : Type}.
Variable ltM : K -> K -> result bool.

(** The stable insertion of [Py.insert], with a comparison that may
    raise. *)
Fixpoint insert (x : K * A) (l : list (K * A)) : result (list (K * A)) :=
  match l with
  | [] => Ok [x]
  | y :: l' =>
      b <- ltM (fst y) (fst x) ;;
      if (b : bool) then r <- insert x l' ;; Ok (y :: r)
      else Ok (x :: y :: l')
  end.

Fixpoint stable_sort (l : list (K * A)) : result (list (K * A)) :=
  match l with
  | [] => Ok []
  | x :: l' => s <- stable_sort l' ;; insert x s
  end.
End Sorting.

(** [sorted(l, key=key, reverse=reverse)] on keys whose comparison may
    raise. *)
Definition sorted {A K : Type} (ltM : K -> K -> result bool)
    (key : A -> result K) (reverse : bool) (l : list A) : result (list A) :=
  keyed <- Py.mapM (fun x => k <- key x ;; Ok (k, x)) l ;;
  s <- stable_sort (if reverse then fun a b => ltM b a else ltM) keyed ;;
  Ok (map snd s).

Record point (V : Type) : Type := mk_point {
  data : V;
  source : DataSource.t;
  timestamp : datetime
}.

Arguments mk_point {V} data source timestamp.
Arguments data {V} p.
Arguments source {V} p.
Arguments timestamp {V} p.

Section Select.
Context {V : Type}.

(** The body of the grouping loop (step 1). *)
Definition group_step
    (confirmation_groups : list (ConfirmationStatus.t * list (point V)))
    (p : point V)
  : result (list (ConfirmationStatus.t * list (point V))) :=
  status <- DataRules.get_confirmation_status (source p) ;;
  let confirmation_groups :=
    if Dict.contains ConfirmationStatus.eqb status confirmation_groups
    then confirmation_groups
    else Dict.set ConfirmationStatus.eqb status [] confirmation_groups in
  members <- Dict.get ConfirmationStatus.eqb status confirmation_groups ;;
  Ok (Dict.set ConfirmationStatus.eqb status (members ++ [p])
        confirmation_groups).

Definition select_most_relevant_data (data_points : list (point V))
  : result (point V) :=
  match data_points with
  | [] => Raise ValueError_empty_input
  | _ :: _ =>
      (* steps 1 and 2 *)
      confirmation_groups <- Py.for_each group_step data_points [] ;;
      best_confirmation <-
        Py.min_by ConfirmationStatus.get_confirmation_priority
          (Dict.keys confirmation_groups) ;;
      candidates <-
        Dict.get ConfirmationStatus.eqb best_confirmation confirmation_groups ;;
      (* step 3 *)
      if length candidates =? 1 then Py.item0 candidates
      else
        (* step 4 *)
        source_priority_candidates <-
          Py.sorted Nat.ltb
            (fun x => DataSource.get_hierarchy_priority (source x))
            false candidates ;;
        (* step 5 *)
        first <- Py.item0 source_priority_candidates ;;
        best_source_priority <-
          DataSource.get_hierarchy_priority (source first) ;;
        best_source_candidates <-
          Py.filterM
            (fun candidate =>
               p <- DataSource.get_hierarchy_priority (source candidate) ;;
               Ok (p =? best_source_priority))
            source_priority_candidates ;;
        (* step 6 *)
        if length best_source_candidates =? 1
        then Py.item0 best_source_candidates
        else
          (* step 7 *)
          final_candidates <-
            sorted lt (fun x => Ok (timestamp x)) true
              best_source_candidates ;;
          Py.item0 final_candidates
  end.
End Select.

(** The timestamps of [l] are all naive or all aware. *)
Definition comparable {V : Type} (l : list (point V)) : Prop :=
  forall x y, In x l -> In y l ->
              is_aware (timestamp x) = is_aware (timestamp y).

(** Two data points of one source, a naive and an aware timestamp. *)
Definition mixed_data : list (point Z) :=
  [ mk_point 1%Z DataSource.ROSSTAT (Naive 5);
    mk_point 2%Z DataSource.ROSSTAT (Aware 7) ].

(** The same with a data point of a lesser source between them. *)
Definition mixed_data' : list (point Z) :=
  [ mk_point 1%Z DataSource.FSIN (Aware 5);
    mk_point 2%Z DataSource.MANUAL_CONFIRMED (Aware 9);
    mk_point 3%Z DataSource.FSIN (Naive 7) ].

(** Aware timestamps only. *)
Definition aware_data : list (point Z) :=
  [ mk_point 1%Z DataSource.ROSSTAT (Aware 5);
    mk_point 2%Z DataSource.ROSSTAT (Aware 7);
    mk_point 3%Z DataSource.MANUAL_CONFIRMED (Aware 9) ].

End Dated.

(** A data point with a datetime, read as a data point on the time line
    that carries the original as its payload. *)
Definition embed {V : Type} (p : Dated.point V) : data_point (Dated.point V) :=
  mk_point p (Dated.source p) (Dated.instant (Dated.timestamp p)).

(** The dict [d] with [f] applied to its values. *)
Definition map_values {K V W : Type} (f : V -> W) (d : list (K * V))
  : list (K * W) :=
  map (fun kv => (fst kv, f (snd kv))) d.

(** Keyed datetimes read as keyed points of the time line. *)
Definition on_instants {A : Type} (l : list (Dated.datetime * A))
  : list (Z * A) :=
  map (fun kx => (Dated.instant (fst kx), snd kx)) l.

(** ** [universal_reader.py]: the reader registry, the processor and the
    conversion of XML elements

    What the module takes from its libraries is a parameter here:
    [extension_of] stands for [Path(p).suffix.lower().lstrip('.')],
    [path_exists] for [Path(p).exists()], [read] for the [read] methods of
    the readers, [strip] for [str.strip].  A tree of [xml.etree] elements is
    a value of [element]. *)

Module UniversalReader.
Import String.
Local Open Scope string_scope.

Inductive error : Type :=
| FileNotFoundError (file_path : string)  (* raised by read_file *)
| ValueError (file_extension : string)    (* raised by get_reader *)
| AttributeError                          (* a method that the value lacks *)
| Builtin (e : exn)                       (* raised by a built-in, as d[k] *)
| ReadFailure (e : string)                (* whatever a reader's read raises *)
| RecursionError.                         (* the interpreter's frame limit *)

Inductive outcome (A : Type) : Type :=
| Return (a : A)
| Throw (e : error).

Arguments Return {A} a.
Arguments Throw {A} e.

Definition lift {A : Type} (m : result A) : outcome A :=
  match m with
  | Ok a => Return a
  | Raise e => Throw (Builtin e)
  end.

Definition obind {A B : Type} (m : outcome A) (k : A -> outcome B) : outcome B :=
  match m with
  | Return a => k a
  | Throw e => Throw e
  end.

Notation "x <~ m ;; k" := (obind m (fun x => k))
  (at level 61, m at next level, right associativity).

(** The reader classes of the module; [CustomReader] stands for a reader
    class of the caller, with the formats it declares. *)
Inductive reader : Type :=
| CSVReader
| ExcelReader
| JSONReader
| SQLiteReader
| XMLReader
| YAMLReader
| CustomReader (name : string) (formats : list string).

Definition supported_formats (r : reader) : list string :=
  match r with
  | CSVReader => ["csv"; "tsv"; "txt"]
  | ExcelReader => ["xlsx"; "xls"]
  | JSONReader => ["json"]
  | SQLiteReader => ["db"; "sqlite"; "sqlite3"]
  | XMLReader => ["xml"]
  | YAMLReader => ["yaml"; "yml"]
  | CustomReader _ formats => formats
  end.

(** [FileReaderFactory.register_reader], on the dict [_readers]. *)
Definition register_reader (readers : list (string * reader)) (r : reader)
  : list (string * reader) :=
  fold_left (fun d fmt => Dict.set String.eqb fmt r d)
    (supported_formats r) readers.

(** [FileReaderFactory._register_default_readers] *)
Definition register_default_readers (readers : list (string * reader))
  : list (string * reader) :=
  fold_left register_reader
    [CSVReader; ExcelReader; JSONReader; SQLiteReader; XMLReader] readers.

(** [FileReaderFactory.__init__] *)
Definition FileReaderFactory : list (string * reader) :=
  register_default_readers [].

Section Environment.
Variable extension_of : string -> string.

(** [FileReaderFactory.get_reader] *)
Definition get_reader (readers : list (string * reader)) (file_path : string)
  : outcome reader :=
  let file_extension := extension_of file_path in
  if Dict.contains String.eqb file_extension readers
  then lift (Dict.get String.eqb file_extension readers)
  else Throw (ValueError file_extension).

Variables D Kw : Type.
Variable path_exists : string -> bool.
Variable read : reader -> string -> Kw -> outcome D.

(** [class RelationalDataProcessor] *)
Record RelationalDataProcessor : Type := mk_processor {
  factory : list (string * reader);
  loaded_data : list (string * D)
}.

(** [RelationalDataProcessor.__init__] *)
Definition new_processor : RelationalDataProcessor :=
  mk_processor FileReaderFactory [].

(** [RelationalDataProcessor.read_file]: the processor after the call and
    what the call returns or raises. *)
Definition read_file (self : RelationalDataProcessor) (file_path : string)
    (kwargs : Kw) : RelationalDataProcessor * outcome D :=
  if negb (path_exists file_path)
  then (self, Throw (FileNotFoundError file_path))
  else
    match get_reader (factory self) file_path with
    | Throw e => (self, Throw e)
    | Return r =>
        match read r file_path kwargs with
        | Throw e => (self, Throw e)
        | Return data =>
            (mk_processor (factory self)
               (Dict.set String.eqb file_path data (loaded_data self)),
             Return data)
        end
    end.

Definition get_available_formats (self : RelationalDataProcessor)
  : list string :=
  Dict.keys (factory self).

Definition add_custom_reader (self : RelationalDataProcessor) (r : reader)
  : RelationalDataProcessor :=
  mk_processor (register_reader (factory self) r) (loaded_data self).
End Environment.

Section Sqlite.
Variable DF : Type.
(** [pd.read_sql_query(f"SELECT * FROM {table}", conn)] *)
Variable read_sql_query : string -> outcome DF.

(** The body of the loop over the tables (lines 103 to 105). *)
Definition read_table (table_name : option string)
    (data : list (string * DF)) (table : string)
  : outcome (list (string * DF)) :=
  if match table_name with
     | None => true
     | Some name => table =? name
     end
  then df <~ read_sql_query table ;;
       Return (Dict.set String.eqb table df data)
  else Return data.

Fixpoint read_tables (table_name : option string) (tables : list string)
    (data : list (string * DF)) : outcome (list (string * DF)) :=
  match tables with
  | [] => Return data
  | table :: tables' =>
      data <~ read_table table_name data table ;;
      read_tables table_name tables' data
  end.

(** [SQLiteReader.read], from the list of the table names on. *)
Definition SQLiteReader_read (tables : list string)
    (table_name : option string) : outcome (list (string * DF)) :=
  read_tables table_name tables [].
End Sqlite.

(** An [xml.etree] element: tag, attributes, text and children. *)
#[warnings="-register-all"]
Inductive element : Type :=
| Element (tag : string) (attrib : list (string * string))
    (text : option string) (children : list element).

Definition tag (e : element) : string :=
  match e with Element t _ _ _ => t end.

(** The values that [_parse_xml_element] builds: [None], a string, a dict
    with string keys, a list. *)
#[warnings="-register-all"]
Inductive xvalue : Type :=
| XNone
| XStr (s : string)
| XDict (items : list (string * xvalue))
| XList (items : list xvalue).

Definition is_list (v : xvalue) : bool :=
  match v with XList _ => true | _ => false end.

Definition is_dict (v : xvalue) : bool :=
  match v with XDict _ => true | _ => false end.

Definition is_empty {A : Type} (l : list A) : bool :=
  match l with [] => true | _ => false end.

(** The truth value of a string. *)
Definition truthy (s : string) : bool := negb (s =? "").

(** [result.update(attrib)] *)
Definition update (result : list (string * xvalue))
    (attrib : list (string * string)) : list (string * xvalue) :=
  fold_left (fun d kv => Dict.set String.eqb (fst kv) (XStr (snd kv)) d)
    attrib result.

(** The body of the loop over the children (lines 151 to 158). *)
Definition add_child (result : list (string * xvalue)) (child_tag : string)
    (child_data : xvalue) : outcome (list (string * xvalue)) :=
  if Dict.contains String.eqb child_tag result then
    current <~ lift (Dict.get String.eqb child_tag result) ;;
    let result :=
      if negb (is_list current)
      then Dict.set String.eqb child_tag (XList [current]) result
      else result in
    current <~ lift (Dict.get String.eqb child_tag result) ;;
    match current with
    | XList items =>
        Return (Dict.set String.eqb child_tag (XList (items ++ [child_data]))
                  result)
    | _ => Throw AttributeError
    end
  else Return (Dict.set String.eqb child_tag child_data result).

Section Xml.
Variable strip : string -> string.

(** [element.text and element.text.strip()] *)
Definition has_text (text : option string) : bool :=
  match text with
  | None => false
  | Some s => truthy s && truthy (strip s)
  end.

(** [element.text.strip()] *)
Definition text_strip (text : option string) : outcome string :=
  match text with
  | None => Throw AttributeError
  | Some s => Return (strip s)
  end.

(** [any(isinstance(v, dict) for v in result.values())]: the generator
    expression runs in a frame of its own, above the frame of the call;
    [frames] is the number of frames that may still be pushed. *)
Definition any_dict (frames : nat) (result : list (string * xvalue))
  : outcome bool :=
  match frames with
  | 0 => Throw RecursionError
  | S _ => Return (existsb is_dict (map snd result))
  end.

(** The end of [_parse_xml_element] (lines 161 to 166). *)
Definition finish (frames : nat) (text : option string)
    (result : list (string * xvalue)) : outcome xvalue :=
  if is_empty result && has_text text then
    s <~ text_strip text ;; Return (XStr s)
  else
    write <~
      (if has_text text
       then found <~ any_dict frames result ;; Return (negb found)
       else Return false) ;;
    result <~
      (if (write : bool)
       then s <~ text_strip text ;;
            Return (Dict.set String.eqb "_text" (XStr s) result)
       else Return result) ;;
    Return (if negb (is_empty result) then XDict result else XNone).

(** [XMLReader._parse_xml_element].  [frames] is the number of frames that
    the interpreter's recursion limit still allows, the frame of this call
    included: a call with no frame left raises [RecursionError]. *)
Fixpoint parse_xml_element (frames : nat) (e : element) {struct frames}
  : outcome xvalue :=
  match frames with
  | 0 => Throw RecursionError
  | S frames =>
      match e with
      | Element _ attrib text children =>
          let result := [] in
          let result := if negb (is_empty attrib) then update result attrib
                        else result in
          result <~
            (fix loop (cs : list element) (result : list (string * xvalue))
               {struct cs} : outcome (list (string * xvalue)) :=
               match cs with
               | [] => Return result
               | child :: cs' =>
                   child_data <~ parse_xml_element frames child ;;
                   result <~ add_child result (tag child) child_data ;;
                   loop cs' result
               end) children result ;;
          finish frames text result
      end
  end.

(** The loop over the children, as a function of its own; [frames] is what
    is left for the calls on the children. *)
Definition parse_children (frames : nat)
  : list element -> list (string * xvalue) ->
    outcome (list (string * xvalue)) :=
  fix loop (cs : list element) (result : list (string * xvalue)) {struct cs}
    : outcome (list (string * xvalue)) :=
    match cs with
    | [] => Return result
    | child :: cs' =>
        child_data <~ parse_xml_element frames child ;;
        result <~ add_child result (tag child) child_data ;;
        loop cs' result
    end.



(** The value that [_parse_xml_element] returns, [None] if it raises. *)
Definition value_of (frames : nat) (e : element) : xvalue :=
  match parse_xml_element frames e with
  | Return v => v
  | Throw _ => XNone
  end.

(** What a key of the result holds after the loop: the attribute of that
    name, if any, followed by the data of the children of that tag, in
    document order; a single value stands for itself, several ones are
    gathered in a list. *)
Definition gathered (attribute : option xvalue) (ds : list xvalue)
  : option xvalue :=
  match attribute, ds with
  | None, [] => None
  | None, [d] => Some d
  | None, _ => Some (XList ds)
  | Some v, [] => Some v
  | Some v, _ => Some (XList (v :: ds))
  end.

(** [d[k]] if [k in d]. *)
Definition lookup (k : string) (d : list (string * xvalue)) : option xvalue :=
  match Dict.get String.eqb k d with
  | Ok v => Some v
  | Raise _ => None
  end.
End Xml.


(** A document with an attribute and a repeated child tag:
    [<list kind="a"><item>x</item><item>y</item><note>z</note></list>]. *)
Definition sample_element : element :=
  Element "list" [("kind", "a")] None
    [ Element "item" [] (Some "x") [];
      Element "item" [] (Some "y") [];
      Element "note" [] (Some "z") [] ].

(** An element with text and with a child tagged [_text]:
    [<a>hello<_text>x</_text><b>y</b></a>]. *)
Definition text_element : element :=
  Element "a" [] (Some "hello")
    [ Element "_text" [] (Some "x") [];
      Element "b" [] (Some "y") [] ].

End UniversalReader.

(** ** Vocabulary of the further properties *)

(** The later of two data points, the first one when the timestamps are
    equal. *)
Definition later {V : Type} (x y : data_point V) : data_point V :=
  if (timestamp x <? timestamp y)%Z then y else x.

(** No two members of [l] have the same source and the same timestamp,
    unless they are equal. *)
Definition no_exact_ties {V : Type} (l : list (data_point V)) : Prop :=
  forall x y, In x l -> In y l ->
              source x = source y -> timestamp x = timestamp y -> x = y.

(** ** Facts about the two enumerations *)

Lemma source_eqb_eq (a b : DataSource.t) :
  DataSource.eqb a b = true <-> a = b.
Proof. destruct a, b; simpl; split; congruence. Qed.

Lemma status_eqb_eq (a b : ConfirmationStatus.t) :
  ConfirmationStatus.eqb a b = true <-> a = b.
Proof. destruct a, b; simpl; split; congruence. Qed.

Lemma status_eqb_refl (a : ConfirmationStatus.t) :
  ConfirmationStatus.eqb a a = true.
Proof. now apply status_eqb_eq. Qed.

Lemma hierarchy_priority_ok (s : DataSource.t) :
  DataSource.get_hierarchy_priority s = Ok (rank s).
Proof. destruct s; reflexivity. Qed.

Lemma confirmation_status_ok (s : DataSource.t) :
  DataRules.get_confirmation_status s = Ok (status_of s).
Proof. destruct s; reflexivity. Qed.

Lemma confirmation_priority_ok (c : ConfirmationStatus.t) :
  ConfirmationStatus.get_confirmation_priority c = Ok (status_rank c).
Proof. destruct c; reflexivity. Qed.

Lemma rank_inj (a b : DataSource.t) : rank a = rank b -> a = b.
Proof. destruct a, b; cbv; congruence. Qed.

Lemma status_rank_inj (a b : ConfirmationStatus.t) :
  status_rank a = status_rank b -> a = b.
Proof. destruct a, b; cbv; congruence. Qed.

Lemma status_eqb_rank (a b : ConfirmationStatus.t) :
  ConfirmationStatus.eqb a b = (status_rank a =? status_rank b).
Proof. destruct a, b; reflexivity. Qed.

(** The source-to-confirmation map is monotone for the two rankings. *)
Lemma status_of_monotone (a b : DataSource.t) :
  rank a <= rank b -> status_rank (status_of a) <= status_rank (status_of b).
Proof. destruct a, b; cbv; lia. Qed.

(** ** Fallible built-ins on keys that never raise *)

Section Pure.
Context {A : Type}.

Lemma mapM_pure {B : Type} (f : A -> result B) (g : A -> B) (l : list A) :
  (forall x, f x = Ok (g x)) -> Py.mapM f l = Ok (map g l).
Proof.
  intros Hf. induction l as [|x l IH]; simpl; [reflexivity|].
  now rewrite Hf, IH.
Qed.

Lemma filterM_pure (p : A -> result bool) (q : A -> bool) (l : list A) :
  (forall x, p x = Ok (q x)) -> Py.filterM p l = Ok (filter q l).
Proof.
  intros Hp. induction l as [|x l IH]; simpl; [reflexivity|].
  now rewrite Hp, IH.
Qed.

Lemma sorted_pure {B : Type} (ltb : B -> B -> bool) (key : A -> result B) (k : A -> B)
    (reverse : bool) (l : list A) :
  (forall x, key x = Ok (k x)) ->
  Py.sorted ltb key reverse l =
  Ok (map snd (Py.stable_sort (if reverse then fun a b => ltb b a else ltb)
                 (map (fun x => (k x, x)) l))).
Proof.
  intros Hk. unfold Py.sorted.
  rewrite (mapM_pure _ (fun x => (k x, x))); [reflexivity|].
  intros x. now rewrite Hk.
Qed.
End Pure.

Section MinBy.
Context {A : Type}.
Variables (key : A -> result nat) (k : A -> nat).
Hypothesis key_ok : forall x, key x = Ok (k x).

Lemma min_scan_pure (l : list A) (best : A) :
  exists r, Py.min_scan key l best (k best) = Ok r /\
            (r = best \/ In r l) /\
            k r <= k best /\
            (forall y, In y l -> k r <= k y).
Proof.
  revert best. induction l as [|x l IH]; intros best; simpl.
  - exists best. repeat split; auto. intros y [].
  - rewrite key_ok. simpl. destruct (k x <? k best) eqn:E.
    + apply Nat.ltb_lt in E.
      destruct (IH x) as (r & Hr & Hin & Hle & Hall).
      exists r. repeat split; auto.
      * destruct Hin; auto.
      * lia.
      * intros y [<-|Hy]; auto.
    + apply Nat.ltb_ge in E.
      destruct (IH best) as (r & Hr & Hin & Hle & Hall).
      exists r. repeat split; auto.
      * destruct Hin; auto.
      * intros y [<-|Hy]; auto. lia.
Qed.

Lemma min_by_pure (l : list A) :
  l <> [] ->
  exists r, Py.min_by key l = Ok r /\ In r l /\
            (forall y, In y l -> k r <= k y).
Proof.
  destruct l as [|x l]; [congruence|]. intros _. simpl.
  rewrite key_ok. simpl.
  destruct (min_scan_pure l x) as (r & Hr & Hin & Hle & Hall).
  exists r. repeat split; auto.
  - destruct Hin; auto.
  - intros y [<-|Hy]; auto.
Qed.
End MinBy.

(** ** Least values and the members that reach them *)

Section BestFacts.
Context {A : Type}.
Variable f : A -> nat.

Lemma minimum_le (x : A) (l : list A) (y : A) :
  In y (x :: l) -> minimum f x l <= f y.
Proof.
  revert x. induction l as [|z l IH]; intros x Hy; simpl in *.
  - destruct Hy as [<-|[]]. lia.
  - destruct Hy as [<-|Hy]; [lia|].
    specialize (IH z Hy). lia.
Qed.

Lemma minimum_in (x : A) (l : list A) :
  exists p, In p (x :: l) /\ f p = minimum f x l.
Proof.
  revert x. induction l as [|z l IH]; intros x; simpl.
  - exists x. auto.
  - destruct (IH z) as (p & Hp & Hfp).
    destruct (Nat.le_gt_cases (f x) (minimum f z l)).
    + exists x. split; [auto|lia].
    + exists p. split; [simpl in Hp; tauto|lia].
Qed.

Lemma minimum_unique (x : A) (l : list A) (p : A) :
  In p (x :: l) -> (forall y, In y (x :: l) -> f p <= f y) ->
  minimum f x l = f p.
Proof.
  intros Hp Hall.
  destruct (minimum_in x l) as (q & Hq & Hfq).
  pose proof (minimum_le x l p Hp). specialize (Hall q Hq). lia.
Qed.

Lemma best_by_In (l : list A) (p : A) :
  In p (best_by f l) <-> In p l /\ forall y, In y l -> f p <= f y.
Proof.
  destruct l as [|x l]; [simpl; tauto|].
  unfold best_by. rewrite filter_In, Nat.eqb_eq. split.
  - intros [Hp E]. split; [assumption|].
    intros y Hy. rewrite E. now apply minimum_le.
  - intros [Hp Hall]. split; [assumption|].
    symmetry. now apply minimum_unique.
Qed.

Lemma best_by_nonempty (l : list A) : l <> [] -> best_by f l <> [].
Proof.
  destruct l as [|x l]; [congruence|]. intros _.
  destruct (minimum_in x l) as (p & Hp & Hfp).
  assert (In p (best_by f (x :: l))) as Hin.
  { unfold best_by. apply filter_In. split; [assumption|].
    now apply Nat.eqb_eq. }
  intros E. rewrite E in Hin. destruct Hin.
Qed.

(** The members of [l] that reach a value known to be least. *)
Lemma best_by_filter (l : list A) (m : nat) :
  (exists p, In p l /\ f p = m) -> (forall y, In y l -> m <= f y) ->
  best_by f l = filter (fun p => f p =? m) l.
Proof.
  intros (p & Hp & <-) Hall. destruct l as [|x l]; [reflexivity|].
  unfold best_by. now rewrite (minimum_unique x l p Hp Hall).
Qed.

End BestFacts.

(** ** Dicts *)

Section DictFacts.
Context {K V : Type}.
Variable eqb : K -> K -> bool.
Hypothesis eqb_eq : forall a b, eqb a b = true <-> a = b.

Lemma eqb_same (a : K) : eqb a a = true.
Proof. now apply eqb_eq. Qed.

Lemma eqb_differ (a b : K) : a <> b -> eqb a b = false.
Proof.
  intros Hab. destruct (eqb a b) eqn:E; [|reflexivity].
  now apply eqb_eq in E.
Qed.

Lemma contains_set_same (k : K) (v : V) (d : list (K * V)) :
  Dict.contains eqb k (Dict.set eqb k v d) = true.
Proof.
  induction d as [|[k' v'] d IH]; simpl.
  - now rewrite eqb_same.
  - destruct (eqb k' k) eqn:E; simpl; now rewrite E.
Qed.

Lemma get_set_same (k : K) (v : V) (d : list (K * V)) :
  Dict.get eqb k (Dict.set eqb k v d) = Ok v.
Proof.
  induction d as [|[k' v'] d IH]; simpl.
  - now rewrite eqb_same.
  - destruct (eqb k' k) eqn:E; simpl; now rewrite E.
Qed.

Lemma contains_set_other (k k' : K) (v : V) (d : list (K * V)) :
  k <> k' -> Dict.contains eqb k (Dict.set eqb k' v d) = Dict.contains eqb k d.
Proof.
  intros Hk. induction d as [|[k0 v0] d IH]; simpl.
  - rewrite eqb_differ; auto.
  - destruct (eqb k0 k') eqn:E; simpl; [reflexivity|now rewrite IH].
Qed.

Lemma get_set_other (k k' : K) (v : V) (d : list (K * V)) :
  k <> k' -> Dict.get eqb k (Dict.set eqb k' v d) = Dict.get eqb k d.
Proof.
  intros Hk. induction d as [|[k0 v0] d IH]; simpl.
  - rewrite eqb_differ; auto.
  - destruct (eqb k0 k') eqn:E; simpl.
    + apply eqb_eq in E. subst k0. rewrite eqb_differ; auto.
    + now rewrite IH.
Qed.

Lemma in_keys_contains (k : K) (d : list (K * V)) :
  In k (Dict.keys d) <-> Dict.contains eqb k d = true.
Proof.
  induction d as [|[k' v'] d IH]; simpl.
  - split; [tauto|discriminate].
  - destruct (eqb k' k) eqn:E.
    + apply eqb_eq in E. tauto.
    + rewrite <- IH. split; [|tauto].
      intros [->|H]; [|assumption].
      rewrite eqb_same in E. discriminate.
Qed.
End DictFacts.

(** ** The grouping loop (steps 1 and 2) *)

Section Grouping.
Context {V : Type}.

Lemma members_of_snoc (c : ConfirmationStatus.t) (l : list (data_point V))
    (x : data_point V) :
  members_of c (l ++ [x]) =
  members_of c l ++
  (if ConfirmationStatus.eqb (status_of (source x)) c then [x] else []).
Proof.
  unfold members_of. rewrite filter_app. simpl.
  now destruct (ConfirmationStatus.eqb (status_of (source x)) c).
Qed.

Lemma grouped_contains (d : @groups V) (l : list (data_point V))
    (c : ConfirmationStatus.t) :
  grouped d l ->
  Dict.contains ConfirmationStatus.eqb c d = true ->
  members_of c l <> [] /\
  Dict.get ConfirmationStatus.eqb c d = Ok (members_of c l).
Proof.
  intros G Hc. specialize (G c).
  destruct (members_of c l) as [|p m]; [congruence|].
  split; [discriminate|tauto].
Qed.

Lemma grouped_absent (d : @groups V) (l : list (data_point V))
    (c : ConfirmationStatus.t) :
  grouped d l ->
  Dict.contains ConfirmationStatus.eqb c d = false ->
  members_of c l = [].
Proof.
  intros G Hc. specialize (G c).
  destruct (members_of c l) as [|p m]; [reflexivity|].
  destruct G. congruence.
Qed.

Lemma group_step_grouped (d : @groups V) (l : list (data_point V))
    (x : data_point V) :
  grouped d l ->
  exists d', group_step d x = Ok d' /\ grouped d' (l ++ [x]).
Proof.
  intros G. unfold group_step.
  rewrite confirmation_status_ok. simpl.
  set (s := status_of (source x)).
  destruct (Dict.contains ConfirmationStatus.eqb s d) eqn:Hs.
  - destruct (grouped_contains d l s G Hs) as [Hne Hget].
    rewrite Hget. simpl. eexists. split; [reflexivity|].
    intros c. rewrite members_of_snoc. fold s.
    destruct (ConfirmationStatus.eqb s c) eqn:E.
    + apply status_eqb_eq in E. subst c.
      rewrite (contains_set_same _ status_eqb_eq).
      rewrite (get_set_same _ status_eqb_eq).
      destruct (members_of s l ++ [x]) eqn:E'; [|auto].
      now destruct (members_of s l).
    + assert (c <> s) as Hcs.
      { intros ->. now rewrite status_eqb_refl in E. }
      rewrite app_nil_r.
      rewrite (contains_set_other _ status_eqb_eq) by assumption.
      rewrite (get_set_other _ status_eqb_eq) by assumption.
      apply G.
  - pose proof (grouped_absent d l s G Hs) as Hnil.
    rewrite (get_set_same _ status_eqb_eq). simpl.
    eexists. split; [reflexivity|].
    intros c. rewrite members_of_snoc. fold s.
    destruct (ConfirmationStatus.eqb s c) eqn:E.
    + apply status_eqb_eq in E. subst c.
      rewrite (contains_set_same _ status_eqb_eq).
      rewrite (get_set_same _ status_eqb_eq).
      rewrite Hnil. simpl. auto.
    + assert (c <> s) as Hcs.
      { intros ->. now rewrite status_eqb_refl in E. }
      rewrite app_nil_r.
      rewrite !(contains_set_other _ status_eqb_eq) by assumption.
      rewrite !(get_set_other _ status_eqb_eq) by assumption.
      apply G.
Qed.

Lemma for_each_grouped (l pre : list (data_point V)) (d : @groups V) :
  grouped d pre ->
  exists d', Py.for_each group_step l d = Ok d' /\ grouped d' (pre ++ l).
Proof.
  revert pre d. induction l as [|x l IH]; intros pre d G; simpl.
  - exists d. now rewrite app_nil_r.
  - destruct (group_step_grouped d pre x G) as (d1 & Hstep & G1).
    rewrite Hstep. simpl.
    destruct (IH (pre ++ [x]) d1 G1) as (d' & Hd' & G').
    exists d'. split; [assumption|].
    now rewrite <- app_assoc in G'.
Qed.

Lemma grouped_empty : @grouped V [] [].
Proof. intros c. reflexivity. Qed.

(** Steps 1 and 2 together: the candidates are the members of the input
    whose confirmation rank is least. *)
Lemma best_group (l : list (data_point V)) :
  l <> [] ->
  exists d c,
    Py.for_each group_step l [] = Ok d /\
    Py.min_by ConfirmationStatus.get_confirmation_priority (Dict.keys d) = Ok c /\
    Dict.get ConfirmationStatus.eqb c d = Ok (best_by confirmation_rank l).
Proof.
  intros Hne.
  destruct (for_each_grouped l [] [] grouped_empty) as (d & Hd & G).
  simpl in G.
  assert (forall p, In p l -> In (status_of (source p)) (Dict.keys d)) as Hkeys.
  { intros p Hp. apply (in_keys_contains _ status_eqb_eq).
    specialize (G (status_of (source p))).
    assert (In p (members_of (status_of (source p)) l)) as Hin.
    { apply filter_In. split; [assumption|apply status_eqb_refl]. }
    destruct (members_of (status_of (source p)) l); [destruct Hin|tauto]. }
  assert (Dict.keys d <> []) as Hk.
  { destruct l as [|p l]; [congruence|].
    intros E. specialize (Hkeys p (or_introl eq_refl)).
    rewrite E in Hkeys. destruct Hkeys. }
  destruct (min_by_pure _ _ confirmation_priority_ok (Dict.keys d) Hk)
    as (c & Hc & Hin & Hmin).
  exists d, c. repeat split; [assumption..|].
  apply (in_keys_contains _ status_eqb_eq) in Hin.
  destruct (grouped_contains d l c G Hin) as [Hmem Hget].
  rewrite Hget. f_equal. symmetry.
  rewrite (best_by_filter confirmation_rank l (status_rank c)).
  - unfold members_of. apply filter_ext. intros p.
    unfold confirmation_rank. symmetry. apply status_eqb_rank.
  - destruct (members_of c l) as [|p m] eqn:E; [congruence|].
    assert (In p (members_of c l)) as Hp by (rewrite E; now left).
    apply filter_In in Hp. destruct Hp as [Hp Hs].
    apply status_eqb_eq in Hs. exists p. split; [assumption|].
    unfold confirmation_rank. now rewrite Hs.
  - intros y Hy. apply Hmin. now apply Hkeys.
Qed.
End Grouping.

(** ** The stable sort *)

Section SortFacts.
Context {A K : Type}.
Variable ltb : K -> K -> bool.

Lemma insert_In (x y : K * A) (s : list (K * A)) :
  In y (Py.insert ltb x s) <-> y = x \/ In y s.
Proof.
  induction s as [|z s IH]; simpl.
  - intuition congruence.
  - destruct (ltb (fst z) (fst x)); simpl; rewrite ?IH; intuition congruence.
Qed.

Lemma stable_sort_In (y : K * A) (l : list (K * A)) :
  In y (Py.stable_sort ltb l) <-> In y l.
Proof.
  induction l as [|x l IH]; simpl; [tauto|].
  rewrite insert_In, IH. intuition congruence.
Qed.

End SortFacts.

Section SortByRank.
Context {A : Type}.

Lemma filter_least_insert (m : nat) (x : nat * A) (s : list (nat * A)) :
  (forall y, In y s -> m <= fst y) ->
  filter (fun y => fst y =? m) (Py.insert Nat.ltb x s) =
  filter (fun y => fst y =? m) (x :: s).
Proof.
  induction s as [|z s IH]; intros Hlow; [reflexivity|].
  cbn [Py.insert]. destruct (fst z <? fst x) eqn:E; [|reflexivity].
  apply Nat.ltb_lt in E.
  assert (m <= fst z) as Hz by (apply Hlow; now left).
  cbn [filter]. rewrite IH by (intros; apply Hlow; now right).
  cbn [filter].
  replace (fst x =? m) with false by (symmetry; apply Nat.eqb_neq; lia).
  reflexivity.
Qed.

(** Sorting does not disturb the members that have the least key. *)
Lemma filter_least_sort (m : nat) (l : list (nat * A)) :
  (forall y, In y l -> m <= fst y) ->
  filter (fun y => fst y =? m) (Py.stable_sort Nat.ltb l) =
  filter (fun y => fst y =? m) l.
Proof.
  induction l as [|x l IH]; intros Hlow; [reflexivity|].
  cbn [Py.stable_sort]. rewrite filter_least_insert.
  - cbn [filter]. rewrite IH by (intros; apply Hlow; now right). reflexivity.
  - intros y Hy. apply stable_sort_In in Hy. apply Hlow. now right.
Qed.

(** The sorted list starts with a member that has the least key. *)
Lemma stable_sort_head_least (l : list (nat * A)) :
  l <> [] ->
  exists h t, Py.stable_sort Nat.ltb l = h :: t /\ In h l /\
              forall y, In y l -> fst h <= fst y.
Proof.
  induction l as [|x l IH]; [congruence|]. intros _.
  destruct l as [|z l].
  - exists x, []. simpl. repeat split; auto.
    intros y [<-|[]]. lia.
  - destruct IH as (h & t & Hs & Hin & Hlow); [discriminate|].
    cbn [Py.stable_sort] in *. rewrite Hs. cbn [Py.insert].
    destruct (fst h <? fst x) eqn:E.
    + apply Nat.ltb_lt in E. exists h. eexists.
      split; [reflexivity|]. split; [now right|].
      intros y [<-|Hy]; [lia|auto].
    + apply Nat.ltb_ge in E. exists x. eexists.
      split; [reflexivity|]. split; [now left|].
      intros y [<-|Hy]; [lia|]. specialize (Hlow y Hy). lia.
Qed.
End SortByRank.

(** ** Steps 4 to 7 of the selection *)

Section Steps.
Context {V : Type}.

(** Steps 4 and 5: sorting by source rank and keeping the members ranked
    like the first one yields the members of least source rank, in their
    original order. *)
Lemma source_step {B : Type} (candidates : list (data_point V))
    (k : list (data_point V) -> result B) :
  candidates <> [] ->
  (source_priority_candidates <-
     Py.sorted Nat.ltb (fun x => DataSource.get_hierarchy_priority (source x))
       false candidates ;;
   first <- Py.item0 source_priority_candidates ;;
   best_source_priority <- DataSource.get_hierarchy_priority (source first) ;;
   best_source_candidates <-
     Py.filterM
       (fun candidate =>
          p <- DataSource.get_hierarchy_priority (source candidate) ;;
          Ok (p =? best_source_priority))
       source_priority_candidates ;;
   k best_source_candidates)
  = k (best_by source_rank candidates).
Proof.
  intros Hne.
  rewrite (sorted_pure Nat.ltb _ source_rank)
    by (intros; apply hierarchy_priority_ok).
  cbn [bind].
  set (keyed := map (fun x => (source_rank x, x)) candidates).
  assert (forall y, In y keyed -> fst y = source_rank (snd y) /\ In (snd y) candidates)
    as Hkeyed.
  { intros y Hy. apply in_map_iff in Hy. destruct Hy as (x & <- & Hx). auto. }
  destruct (stable_sort_head_least keyed) as (h & t & Hs & Hh & Hlow).
  { subst keyed. destruct candidates; [congruence|discriminate]. }
  assert (Py.item0 (map snd (Py.stable_sort Nat.ltb keyed)) = Ok (snd h)) as H0
    by now rewrite Hs.
  rewrite H0. cbn [bind].
  rewrite hierarchy_priority_ok. cbn [bind].
  rewrite (filterM_pure _ (fun c => source_rank c =? rank (source (snd h))))
    by (intros; now rewrite hierarchy_priority_ok).
  cbn [bind]. f_equal.
  destruct (Hkeyed h Hh) as [Hfh Hhin].
  fold (source_rank (snd h)). rewrite <- Hfh.
  rewrite filter_map_swap.
  rewrite (filter_ext_in _ (fun y => fst y =? fst h)).
  - rewrite filter_least_sort by assumption.
    subst keyed. rewrite filter_map_swap. cbn [fst].
    rewrite map_map. cbn [snd]. rewrite map_id.
    symmetry. apply best_by_filter.
    + exists (snd h). split; [assumption|congruence].
    + intros y Hy. apply (Hlow (source_rank y, y)).
      apply in_map_iff. now exists y.
  - intros y Hy. apply stable_sort_In in Hy.
    destruct (Hkeyed y Hy) as [-> _]. reflexivity.
Qed.

(** Step 7: the descending stable sort by timestamp starts with the latest
    member, the earliest one among those that share the latest timestamp. *)
Lemma stable_sort_head_latest (x : data_point V) (l : list (data_point V)) :
  exists t,
    Py.stable_sort (fun a b => Z.ltb b a)
      (map (fun p => (timestamp p, p)) (x :: l))
    = (timestamp (latest x l), latest x l) :: t.
Proof.
  revert x. induction l as [|y l IH]; intros x.
  - exists []. reflexivity.
  - destruct (IH y) as (t & Ht).
    cbn [map Py.stable_sort] in *. rewrite Ht. cbn [Py.insert fst latest].
    destruct (timestamp x <? timestamp (latest y l))%Z; eexists; reflexivity.
Qed.

Lemma recency_step (l : list (data_point V)) :
  l <> [] ->
  exists r,
    latest_of l = Some r /\
    (final_candidates <-
       Py.sorted Z.ltb (fun x => Ok (timestamp x)) true l ;;
     Py.item0 final_candidates) = Ok r.
Proof.
  destruct l as [|x l]; [congruence|]. intros _.
  exists (latest x l). split; [reflexivity|].
  rewrite (sorted_pure Z.ltb _ timestamp) by reflexivity.
  destruct (stable_sort_head_latest x l) as (t & Ht).
  cbn [bind]. rewrite Ht. reflexivity.
Qed.

Lemma length_one (l : list (data_point V)) :
  (length l =? 1) = true -> exists x, l = [x].
Proof.
  destruct l as [|x [|y l]]; simpl; try discriminate. now exists x.
Qed.

(** The selection computes the cascade of the three levels. *)
Lemma select_cascade (l : list (data_point V)) :
  l <> [] ->
  exists r, cascade l = Some r /\ select_most_relevant_data l = Ok r.
Proof.
  intros Hne. unfold cascade.
  destruct (best_group l Hne) as (d & c & Hd & Hc & Hget).
  pose proof (best_by_nonempty confirmation_rank l Hne) as Hcand.
  set (candidates := best_by confirmation_rank l) in *.
  pose proof (best_by_nonempty source_rank candidates Hcand) as Hbest.
  destruct l as [|p0 l0]; [congruence|].
  unfold select_most_relevant_data.
  rewrite Hd. cbn [bind]. rewrite Hc. cbn [bind]. rewrite Hget. cbn [bind].
  destruct (length candidates =? 1) eqn:L1.
  - destruct (length_one _ L1) as (x & Hx). rewrite Hx.
    exists x. split; [|reflexivity].
    cbn. now rewrite Nat.eqb_refl.
  - rewrite source_step by assumption.
    destruct (length (best_by source_rank candidates) =? 1) eqn:L2.
    + destruct (length_one _ L2) as (x & Hx). rewrite Hx.
      exists x. split; reflexivity.
    + destruct (recency_step _ Hbest) as (r & Hr & Hsel).
      exists r. split; assumption.
Qed.
(** The only exception of the selection is the one of the empty input. *)
Lemma select_raises (l : list (data_point V)) (e : exn) :
  select_most_relevant_data l = Raise e -> l = [] /\ e = EmptyInput.
Proof.
  intros Hraise. destruct l as [|p l].
  - cbn in Hraise. injection Hraise as <-. auto.
  - destruct (select_cascade (p :: l)) as (r & _ & Hsel); [discriminate|].
    congruence.
Qed.
End Steps.

(** ** Recency *)

Section RecencyFacts.
Context {V : Type}.

Lemma latest_In (x : data_point V) (l : list (data_point V)) :
  In (latest x l) (x :: l).
Proof.
  revert x. induction l as [|y l IH]; intros x; [now left|].
  cbn [latest]. destruct (timestamp x <? timestamp (latest y l))%Z.
  - right. apply IH.
  - now left.
Qed.

Lemma latest_spec (x : data_point V) (l : list (data_point V)) :
  exists i, latest_earliest_at (x :: l) i (latest x l).
Proof.
  revert x. induction l as [|y l IH]; intros x.
  - exists 0. split; [reflexivity|]. split.
    + intros z [<-|[]]. cbn. lia.
    + intros j z Hj. lia.
  - destruct (IH y) as (i & Hnth & Hmax & Hbefore).
    cbn [latest]. destruct (timestamp x <? timestamp (latest y l))%Z eqn:E.
    + apply Z.ltb_lt in E. exists (S i). split; [exact Hnth|]. split.
      * intros z [<-|Hz]; [lia|auto].
      * intros [|j] z Hj Hz; cbn in Hz.
        -- injection Hz as <-. assumption.
        -- apply (Hbefore j); [lia|assumption].
    + apply Z.ltb_ge in E. exists 0. split; [reflexivity|]. split.
      * intros z [<-|Hz]; [lia|]. specialize (Hmax z Hz). lia.
      * intros j z Hj. lia.
Qed.

(** The position and the member singled out by [latest_earliest_at] are
    unique. *)
Lemma latest_earliest_unique (l : list (data_point V)) (i j : nat)
    (r r' : data_point V) :
  latest_earliest_at l i r -> latest_earliest_at l j r' -> i = j /\ r = r'.
Proof.
  intros (Hi & Hmax & Hbefore) (Hj & Hmax' & Hbefore').
  assert (i = j) as ->.
  { destruct (Nat.lt_trichotomy i j) as [Hlt|[Heq|Hgt]]; [|assumption|].
    - specialize (Hbefore' i r Hlt Hi).
      specialize (Hmax r' (nth_error_In l j Hj)). lia.
    - specialize (Hbefore j r' Hgt Hj).
      specialize (Hmax' r (nth_error_In l i Hi)). lia. }
  split; [reflexivity|congruence].
Qed.

Lemma latest_of_In (l : list (data_point V)) (r : data_point V) :
  latest_of l = Some r -> In r l.
Proof.
  destruct l as [|x l]; [discriminate|]. intros [= <-]. apply latest_In.
Qed.

Lemma latest_of_spec (l : list (data_point V)) (r : data_point V) :
  latest_of l = Some r -> exists i, latest_earliest_at l i r.
Proof.
  destruct l as [|x l]; [discriminate|]. intros [= <-]. apply latest_spec.
Qed.

Lemma cascade_In (l : list (data_point V)) (r : data_point V) :
  cascade l = Some r ->
  In r l /\ (forall y, In y l -> confirmation_rank r <= confirmation_rank y).
Proof.
  intros H. apply latest_of_In in H.
  apply best_by_In in H. destruct H as [H _].
  now apply best_by_In in H.
Qed.

Lemma filter_filter_implied (p q : data_point V -> bool)
    (l : list (data_point V)) :
  (forall x, In x l -> q x = true -> p x = true) ->
  filter q (filter p l) = filter q l.
Proof.
  induction l as [|x l IH]; intros H; [reflexivity|].
  cbn [filter]. destruct (p x) eqn:Ep.
  - cbn [filter]. rewrite IH by (intros; apply H; simpl; auto). reflexivity.
  - rewrite IH by (intros; apply H; simpl; auto).
    destruct (q x) eqn:Eq; [|reflexivity].
    rewrite H in Ep; [discriminate|now left|assumption].
Qed.

(** As the source-to-confirmation map is monotone, the confirmation level
    of the cascade removes no member of least source rank. *)
Lemma best_source_of_best_confirmation (l : list (data_point V)) :
  best_by source_rank (best_by confirmation_rank l) = best_by source_rank l.
Proof.
  destruct l as [|x0 l0]; [reflexivity|].
  set (l := x0 :: l0).
  destruct (minimum_in source_rank x0 l0) as (p & Hp & Hm). fold l in Hp.
  assert (forall y, In y l -> source_rank p <= source_rank y) as Hlow.
  { intros y Hy. rewrite Hm. now apply minimum_le. }
  assert (In p (best_by confirmation_rank l)) as Hpc.
  { apply best_by_In. split; [assumption|].
    intros y Hy. apply status_of_monotone. now apply Hlow. }
  rewrite (best_by_filter source_rank (best_by confirmation_rank l)
             (source_rank p)).
  - rewrite (best_by_filter source_rank l (source_rank p)) by eauto.
    unfold l at 1, best_by at 1. fold l.
    apply filter_filter_implied.
    intros x Hx E. apply Nat.eqb_eq in E. apply rank_inj in E.
    unfold l, best_by in Hpc. apply filter_In in Hpc.
    destruct Hpc as [_ Hpc]. unfold confirmation_rank in *.
    now rewrite E.
  - eauto.
  - intros y Hy. apply best_by_In in Hy. apply Hlow. tauto.
Qed.

Lemma cascade_simpler (l : list (data_point V)) :
  cascade l = select_by_source_then_recency l.
Proof.
  unfold cascade, select_by_source_then_recency.
  now rewrite best_source_of_best_confirmation.
Qed.

(** What the simpler procedure returns: a member of least source rank that
    is the latest, and the earliest of the latest, among the members of
    that rank. *)
Lemma select_by_source_then_recency_spec (l : list (data_point V))
    (r : data_point V) :
  select_by_source_then_recency l = Some r ->
  In r l /\
  (forall y, In y l -> source_rank r <= source_rank y) /\
  exists i,
    latest_earliest_at
      (filter (fun p => source_rank p =? source_rank r) l) i r.
Proof.
  unfold select_by_source_then_recency. intros H.
  pose proof (latest_of_In _ _ H) as Hin.
  apply best_by_In in Hin. destruct Hin as [Hin Hlow].
  split; [assumption|]. split; [assumption|].
  rewrite (best_by_filter source_rank l (source_rank r)) in H by eauto.
  now apply latest_of_spec.
Qed.
End RecencyFacts.

(** ** Payloads and positions *)

Section Retagging.
Context {V W : Type}.
Variable g : V -> W.

Lemma minimum_map {A B : Type} (f : B -> nat) (h : A -> B) (x : A)
    (l : list A) :
  minimum f (h x) (map h l) = minimum (fun a => f (h a)) x l.
Proof.
  revert x. induction l as [|y l IH]; intros x; cbn; [reflexivity|].
  now rewrite IH.
Qed.

Lemma best_by_map {A B : Type} (f : B -> nat) (h : A -> B) (l : list A) :
  best_by f (map h l) = map h (best_by (fun a => f (h a)) l).
Proof.
  destruct l as [|x l]; [reflexivity|].
  cbn [map]. unfold best_by. rewrite minimum_map.
  change (h x :: map h l) with (map h (x :: l)).
  now rewrite filter_map_swap.
Qed.

Lemma latest_retag (x : data_point V) (l : list (data_point V)) :
  latest (retag g x) (map (retag g) l) = retag g (latest x l).
Proof.
  revert x. induction l as [|y l IH]; intros x; [reflexivity|].
  cbn [map latest]. rewrite IH.
  change (timestamp (retag g x)) with (timestamp x).
  change (timestamp (retag g (latest y l))) with (timestamp (latest y l)).
  now destruct (timestamp x <? timestamp (latest y l))%Z.
Qed.

Lemma latest_of_retag (l : list (data_point V)) :
  latest_of (map (retag g) l) = option_map (retag g) (latest_of l).
Proof.
  destruct l as [|x l]; [reflexivity|].
  cbn [map latest_of option_map]. now rewrite latest_retag.
Qed.

(** The cascade reads the payload nowhere. *)
Lemma cascade_retag (l : list (data_point V)) :
  cascade (map (retag g) l) = option_map (retag g) (cascade l).
Proof.
  unfold cascade.
  rewrite (best_by_map confirmation_rank (retag g)).
  rewrite (best_by_map source_rank (retag g)).
  apply latest_of_retag.
Qed.
End Retagging.

Section Positions.
Context {V : Type}.

Lemma retag_erase (n : nat) (p : data_point V) :
  retag snd (retag (fun v => (n, v)) p) = p.
Proof. now destruct p. Qed.

Lemma tag_from_erase (n : nat) (l : list (data_point V)) :
  map (retag snd) (tag_from n l) = l.
Proof.
  revert n. induction l as [|p l IH]; intros n; [reflexivity|].
  cbn [tag_from map]. now rewrite retag_erase, IH.
Qed.

Lemma tag_from_nth (n : nat) (l : list (data_point V))
    (q : data_point (nat * V)) :
  In q (tag_from n l) ->
  exists j, fst (data q) = n + j /\ nth_error l j = Some (retag snd q).
Proof.
  revert n. induction l as [|p l IH]; intros n; [intros []|].
  cbn [tag_from]. intros [<-|Hq].
  - exists 0. split; [cbn; lia|]. cbn [nth_error]. now rewrite retag_erase.
  - destruct (IH (S n) Hq) as (j & Hj & Hnth).
    exists (S j). split; [lia|exact Hnth].
Qed.


Lemma tag_positions_nonempty (l : list (data_point V)) :
  l <> [] -> tag_positions l <> [].
Proof. destruct l; [congruence|discriminate]. Qed.

(** The position reported by [select_position] is the place of the member
    returned by [select_most_relevant_data]. *)
Lemma select_position_spec (l : list (data_point V)) :
  l <> [] ->
  exists q,
    cascade (tag_positions l) = Some q /\
    select_position l = Ok (fst (data q)) /\
    select_most_relevant_data l = Ok (retag snd q) /\
    nth_error l (fst (data q)) = Some (retag snd q).
Proof.
  intros Hne.
  destruct (select_cascade (tag_positions l) (tag_positions_nonempty l Hne))
    as (q & Hc & Hsel).
  exists q. split; [assumption|]. split.
  { unfold select_position. now rewrite Hsel. }
  destruct (select_cascade l Hne) as (r & Hr & Hsel').
  pose proof (cascade_retag snd (tag_positions l)) as Hnat.
  unfold tag_positions in Hnat at 1. rewrite tag_from_erase, Hc, Hr in Hnat.
  injection Hnat as ->. split; [assumption|].
  apply cascade_In in Hc. destruct Hc as [Hin _].
  apply tag_from_nth in Hin. destruct Hin as (j & Hj & Hnth).
  now rewrite Hj.
Qed.
End Positions.

(** ** The selection on sample inputs *)

Example select_test_data :
  select_most_relevant_data test_data = Ok (mk_point 150%Z DataSource.FSIN 8%Z).
Proof. reflexivity. Qed.

Example select_tied_data :
  select_most_relevant_data tied_data = Ok (mk_point 2%Z DataSource.ROSSTAT 7%Z)
  /\ select_position tied_data = Ok 1.
Proof. split; reflexivity. Qed.

Example select_confirmed_data :
  select_most_relevant_data confirmed_data
  = Ok (mk_point 3%Z DataSource.ROSSTAT 4%Z).
Proof. reflexivity. Qed.

Example sorted_descending_is_stable :
  Py.sorted Z.ltb (fun x => Ok (timestamp x)) true tied_data
  = Ok [ mk_point 2%Z DataSource.ROSSTAT 7%Z;
         mk_point 3%Z DataSource.ROSSTAT 7%Z;
         mk_point 1%Z DataSource.ROSSTAT 5%Z ].
Proof. reflexivity. Qed.

(** ** The claims *)

(** Closes a goal about concrete tags by evaluation. *)
Ltac by_cases :=
  repeat split; intros;
  try reflexivity;
  try (exfalso; match goal with H : _ |- _ => cbv in H; first [discriminate H | lia] end);
  try (cbv; lia);
  try (cbv; congruence).

(** On timestamps read as points of the time line: for every non-empty list
    of data points, [select_most_relevant_data] returns a value, and this value is a member of the input list, found at
    the position that [select_position] reports. *)
Theorem select_returns_member {V : Type} (l : list (data_point V)) :
  l <> [] ->
  exists r i,
    select_most_relevant_data l = Ok r /\ In r l /\
    select_position l = Ok i /\ nth_error l i = Some r.
Proof.
  intros Hne.
  destruct (select_position_spec l Hne) as (q & _ & Hpos & Hsel & Hnth).
  exists (retag snd q), (fst (data q)).
  repeat split; try assumption.
  now apply nth_error_In in Hnth.
Qed.

Lemma select_returns_member_witness :
  exists r i,
    select_most_relevant_data test_data = Ok r /\ In r test_data /\
    select_position test_data = Ok i /\ nth_error test_data i = Some r.
Proof. apply (select_returns_member test_data). discriminate. Defined.

(** C2: on the empty list [select_most_relevant_data] raises the
    [ValueError] that the specification calls EmptyInput, and returns no
    value at all. *)
Theorem select_empty_input (V : Type) :
  select_most_relevant_data (@nil (data_point V)) = Raise EmptyInput /\
  forall r, select_most_relevant_data (@nil (data_point V)) <> Ok r.
Proof. split; [reflexivity|]. intros r. discriminate. Qed.







(** C6: [compare_data_sources] returns -1 exactly when the first source has
    the smaller rank, 1 exactly when it has the greater rank, and 0 exactly
    when the two sources are the same tag; [compare_confirmation_status]
    does the same on the ranks of confirmation statuses. *)
Theorem compare_trichotomy :
  (forall a b : DataSource.t,
      DataSource.get_hierarchy_priority a = Ok (rank a) /\
      (DataRules.compare_data_sources a b = Ok (-1)%Z <-> rank a < rank b) /\
      (DataRules.compare_data_sources a b = Ok 1%Z <-> rank b < rank a) /\
      (DataRules.compare_data_sources a b = Ok 0%Z <-> a = b) /\
      (rank a = rank b -> a = b)) /\
  (forall s t : ConfirmationStatus.t,
      ConfirmationStatus.get_confirmation_priority s = Ok (status_rank s) /\
      (DataRules.compare_confirmation_status s t = Ok (-1)%Z
       <-> status_rank s < status_rank t) /\
      (DataRules.compare_confirmation_status s t = Ok 1%Z
       <-> status_rank t < status_rank s) /\
      (DataRules.compare_confirmation_status s t = Ok 0%Z <-> s = t) /\
      (status_rank s = status_rank t -> s = t)).
Proof.
  split.
  - intros a b; destruct a, b; by_cases.
  - intros s t; destruct s, t; by_cases.
Qed.

Lemma compare_trichotomy_witness :
  DataRules.compare_data_sources DataSource.ROSSTAT DataSource.AUDIT_RU
  = Ok (-1)%Z /\
  DataRules.compare_confirmation_status
    ConfirmationStatus.MANUAL_UNCONFIRMED ConfirmationStatus.CONFIRMED
  = Ok 1%Z.
Proof.
  destruct compare_trichotomy as [Hs Hc]. split.
  - apply (Hs DataSource.ROSSTAT DataSource.AUDIT_RU). cbv. lia.
  - apply (Hc ConfirmationStatus.MANUAL_UNCONFIRMED ConfirmationStatus.CONFIRMED).
    cbv. lia.
Defined.

(** C7: [hierarchy_order] is a permutation of the five source tags, each
    met exactly once; the rank look-up is injective and its values are
    exactly 0, 1, 2, 3, 4; the source of rank 0 outranks every other source.
    Likewise [confirmation_order] holds the three statuses once each, with
    ranks exactly 0, 1, 2, and the status of rank 0 outranks every other. *)
Theorem priority_lists_are_permutations :
  (Permutation DataSource.hierarchy_order DataSource.members /\
   length DataSource.hierarchy_order = 5 /\
   (forall s, length (filter (DataSource.eqb s) DataSource.hierarchy_order) = 1) /\
   (forall s, exists n, DataSource.get_hierarchy_priority s = Ok n /\ n < 5) /\
   (forall n, n < 5 -> exists s, DataSource.get_hierarchy_priority s = Ok n) /\
   (forall a b, DataSource.get_hierarchy_priority a
                = DataSource.get_hierarchy_priority b -> a = b) /\
   (forall a b, DataSource.get_hierarchy_priority a = Ok 0 -> b <> a ->
                DataRules.compare_data_sources a b = Ok (-1)%Z)) /\
  (Permutation ConfirmationStatus.confirmation_order ConfirmationStatus.members /\
   length ConfirmationStatus.confirmation_order = 3 /\
   (forall s, length (filter (ConfirmationStatus.eqb s)
                        ConfirmationStatus.confirmation_order) = 1) /\
   (forall s, exists n,
        ConfirmationStatus.get_confirmation_priority s = Ok n /\ n < 3) /\
   (forall n, n < 3 ->
              exists s, ConfirmationStatus.get_confirmation_priority s = Ok n) /\
   (forall a b, ConfirmationStatus.get_confirmation_priority a
                = ConfirmationStatus.get_confirmation_priority b -> a = b) /\
   (forall a b, ConfirmationStatus.get_confirmation_priority a = Ok 0 ->
                b <> a ->
                DataRules.compare_confirmation_status a b = Ok (-1)%Z)).
Proof.
  split; repeat match goal with |- _ /\ _ => split end.
  - apply Permutation_refl.
  - reflexivity.
  - intros []; reflexivity.
  - intros s. exists (rank s). destruct s; cbv; split; (reflexivity || lia).
  - intros n Hn. exists (nth n DataSource.hierarchy_order DataSource.FSIN).
    destruct n as [|[|[|[|[|n]]]]]; [reflexivity..|lia].
  - intros a b H. destruct a, b; cbv in H; congruence.
  - intros a b H Hb. destruct a; cbv in H; try discriminate H.
    destruct b; try reflexivity. congruence.
  - apply Permutation_refl.
  - reflexivity.
  - intros []; reflexivity.
  - intros s. exists (status_rank s). destruct s; cbv; split; (reflexivity || lia).
  - intros n Hn.
    exists (nth n ConfirmationStatus.confirmation_order
              ConfirmationStatus.CONFIRMED).
    destruct n as [|[|[|n]]]; [reflexivity..|lia].
  - intros a b H. destruct a, b; cbv in H; congruence.
  - intros a b H Hb. destruct a; cbv in H; try discriminate H.
    destruct b; try reflexivity. congruence.
Qed.

Lemma priority_lists_are_permutations_witness :
  (exists s, DataSource.get_hierarchy_priority s = Ok 4) /\
  DataRules.compare_data_sources DataSource.FSIN DataSource.MANUAL_UNCONFIRMED
  = Ok (-1)%Z.
Proof.
  destruct priority_lists_are_permutations
    as [(_ & _ & _ & _ & Hsurj & _ & Htop) _].
  split.
  - apply Hsurj. lia.
  - apply Htop; [reflexivity|discriminate].
Defined.

(** On timestamps read as points of the time line: for every source tag
    the rank look-up, the confirmation look-up and
    the rank look-up of the resulting status all succeed; the keys of
    [SOURCE_TO_CONFIRMATION] are the source tags, once each; hence the
    selection returns a value on every non-empty input, and the only
    exception it ever raises is the one of the empty input. *)
Theorem lookups_never_fail :
  (forall s, exists n c m,
      DataSource.get_hierarchy_priority s = Ok n /\
      DataRules.get_confirmation_status s = Ok c /\
      ConfirmationStatus.get_confirmation_priority c = Ok m) /\
  (forall s, In s (Dict.keys DataRules.SOURCE_TO_CONFIRMATION)) /\
  NoDup (Dict.keys DataRules.SOURCE_TO_CONFIRMATION) /\
  (forall (V : Type) (l : list (data_point V)),
      l <> [] -> exists r, select_most_relevant_data l = Ok r) /\
  (forall (V : Type) (l : list (data_point V)) (e : exn),
      select_most_relevant_data l = Raise e -> l = [] /\ e = EmptyInput) /\
  (forall (V : Type) (l : list (data_point V)),
      select_most_relevant_data l <> Raise UnknownSource /\
      select_most_relevant_data l <> Raise UnmappedSource).
Proof.
  repeat match goal with |- _ /\ _ => split end.
  - intros s. exists (rank s), (status_of s), (status_rank (status_of s)).
    split; [apply hierarchy_priority_ok|].
    split; [apply confirmation_status_ok|apply confirmation_priority_ok].
  - intros []; cbn; tauto.
  - cbn. repeat constructor; cbn; intuition discriminate.
  - intros V l Hne. destruct (select_cascade l Hne) as (r & _ & Hsel). eauto.
  - intros V l e. apply select_raises.
  - intros V l.
    split; intros H; apply select_raises in H; destruct H; discriminate.
Qed.

Lemma lookups_never_fail_witness :
  exists r, select_most_relevant_data test_data = Ok r.
Proof.
  destruct lookups_never_fail as (_ & _ & _ & Hsel & _).
  apply (Hsel Z test_data). discriminate.
Defined.





(** ** Further properties of [rules.py] *)

Section DictKeys.
Context {K V : Type}.
Variable eqb : K -> K -> bool.
Hypothesis eqb_eq : forall a b, eqb a b = true <-> a = b.

(** Assigning to a key that is present keeps the keys and their order;
    assigning to a new key appends it. *)
Lemma keys_set (k : K) (v : V) (d : list (K * V)) :
  Dict.keys (Dict.set eqb k v d) =
  if Dict.contains eqb k d then Dict.keys d else Dict.keys d ++ [k].
Proof.
  induction d as [|[k' v'] d IH]; cbn; [reflexivity|].
  destruct (eqb k' k) eqn:E; cbn; [reflexivity|].
  unfold Dict.keys in IH. rewrite IH.
  now destruct (Dict.contains eqb k d).
Qed.

Lemma NoDup_keys_set (k : K) (v : V) (d : list (K * V)) :
  NoDup (Dict.keys d) -> NoDup (Dict.keys (Dict.set eqb k v d)).
Proof.
  intros Hd. rewrite keys_set.
  destruct (Dict.contains eqb k d) eqn:E; [assumption|].
  apply NoDup_app; [assumption|repeat constructor; intros []|].
  intros x Hx [<-|[]].
  apply (in_keys_contains eqb eqb_eq) in Hx. congruence.
Qed.

Lemma contains_get (k : K) (d : list (K * V)) :
  Dict.contains eqb k d = true -> exists v, Dict.get eqb k d = Ok v.
Proof.
  induction d as [|[k' v'] d IH]; cbn; [discriminate|].
  destruct (eqb k' k); eauto.
Qed.

Lemma get_contains (k : K) (v : V) (d : list (K * V)) :
  Dict.get eqb k d = Ok v -> Dict.contains eqb k d = true.
Proof.
  induction d as [|[k' v'] d IH]; cbn; [discriminate|].
  destruct (eqb k' k); auto.
Qed.

(** Assigning to a key the value it has changes nothing. *)
Lemma set_same_value (k : K) (v : V) (d : list (K * V)) :
  Dict.get eqb k d = Ok v -> Dict.set eqb k v d = d.
Proof.
  induction d as [|[k' v'] d IH]; cbn; [discriminate|].
  destruct (eqb k' k) eqn:E.
  - now intros [= ->].
  - intros H. now rewrite IH.
Qed.
End DictKeys.

Section GroupSizes.
Context {V : Type}.

(** A group is no larger than all groups together. *)
Lemma group_size_le (c : ConfirmationStatus.t) (m : list (data_point V))
    (d : @groups V) :
  Dict.get ConfirmationStatus.eqb c d = Ok m ->
  length m <= list_sum (map (fun kv => length (snd kv)) d).
Proof.
  induction d as [|[c2 m2] d IH]; cbn; [discriminate|].
  destruct (ConfirmationStatus.eqb c2 c).
  - intros [= ->]. lia.
  - intros G. specialize (IH G). unfold list_sum in IH. lia.
Qed.

(** The number of data points held by the groups of a dict. *)
Lemma group_sizes_set (c : ConfirmationStatus.t) (m : list (data_point V))
    (d : @groups V) :
  list_sum (map (fun kv => length (snd kv)) (Dict.set ConfirmationStatus.eqb c m d))
  = match Dict.get ConfirmationStatus.eqb c d with
    | Ok old =>
        list_sum (map (fun kv => length (snd kv)) d) - length old + length m
    | Raise _ => list_sum (map (fun kv => length (snd kv)) d) + length m
    end.
Proof.
  induction d as [|[c' m'] d IH]; [cbn; lia|].
  cbn [Dict.set Dict.get].
  destruct (ConfirmationStatus.eqb c' c) eqn:E; [cbn; lia|].
  cbn [map snd].
  change (list_sum (?a :: ?x)) with (a + list_sum x).
  rewrite IH.
  destruct (Dict.get ConfirmationStatus.eqb c d) as [old|e] eqn:G; [|lia].
  pose proof (group_size_le c old d G). lia.
Qed.

Lemma group_step_size (d d' : @groups V) (x : data_point V) :
  group_step d x = Ok d' ->
  list_sum (map (fun kv => length (snd kv)) d')
  = S (list_sum (map (fun kv => length (snd kv)) d)) /\
  (NoDup (Dict.keys d) -> NoDup (Dict.keys d')).
Proof.
  unfold group_step. rewrite confirmation_status_ok. cbn [bind].
  set (s := status_of (source x)).
  destruct (Dict.contains ConfirmationStatus.eqb s d) eqn:Hs.
  - destruct (contains_get _ _ _ Hs) as (m & Hm). rewrite Hm. cbn [bind].
    intros [= <-]. split.
    + rewrite group_sizes_set, Hm, length_app. cbn [length].
      pose proof (group_size_le s m d Hm). lia.
    + apply (NoDup_keys_set _ status_eqb_eq).
  - rewrite (get_set_same _ status_eqb_eq). cbn [bind].
    intros [= <-]. split.
    + rewrite group_sizes_set, (get_set_same _ status_eqb_eq).
      rewrite group_sizes_set.
      destruct (Dict.get ConfirmationStatus.eqb s d) as [old|e] eqn:G.
      * apply get_contains in G. congruence.
      * cbn. lia.
    + intros Hd. now do 2 apply (NoDup_keys_set _ status_eqb_eq).
Qed.

Lemma for_each_size (l : list (data_point V)) (d d' : @groups V) :
  Py.for_each group_step l d = Ok d' ->
  list_sum (map (fun kv => length (snd kv)) d')
  = list_sum (map (fun kv => length (snd kv)) d) + length l /\
  (NoDup (Dict.keys d) -> NoDup (Dict.keys d')).
Proof.
  revert d. induction l as [|x l IH]; intros d; cbn.
  - intros [= <-]. split; [lia|auto].
  - destruct (group_step d x) as [d1|e] eqn:E; cbn; [|discriminate].
    intros H. destruct (IH d1 H) as [Hsum Hnd].
    destruct (group_step_size d d1 x E) as [Hsum1 Hnd1].
    split; [lia|auto].
Qed.

(** X1: the grouping loop partitions the input.  It never raises; the keys
    of the dict it builds are the confirmation statuses met in the input,
    once each; the group of a status holds the data points of that status
    in input order; and the groups together hold as many data points as the
    input. *)
Theorem grouping_partitions (l : list (data_point V)) :
  exists d,
    Py.for_each group_step l [] = Ok d /\
    NoDup (Dict.keys d) /\
    (forall c, In c (Dict.keys d) <->
               exists p, In p l /\ status_of (source p) = c) /\
    (forall c, In c (Dict.keys d) ->
               Dict.get ConfirmationStatus.eqb c d = Ok (members_of c l)) /\
    list_sum (map (fun kv => length (snd kv)) d) = length l.
Proof.
  destruct (for_each_grouped l [] [] grouped_empty) as (d & Hd & G).
  cbn in G. exists d. split; [assumption|].
  destruct (for_each_size l [] d Hd) as [Hsum Hnd].
  split; [apply Hnd; constructor|].
  split; [|split; [|exact Hsum]].
  - intros c. rewrite (in_keys_contains _ status_eqb_eq). split.
    + intros Hc. destruct (grouped_contains d l c G Hc) as [Hne _].
      destruct (members_of c l) as [|p m] eqn:E; [congruence|].
      assert (In p (members_of c l)) as Hp by (rewrite E; now left).
      apply filter_In in Hp. destruct Hp as [Hp Hs].
      apply status_eqb_eq in Hs. eauto.
    + intros (p & Hp & Hs). specialize (G c).
      assert (In p (members_of c l)) as Hin.
      { apply filter_In. split; [assumption|]. now apply status_eqb_eq. }
      destruct (members_of c l); [destruct Hin|tauto].
  - intros c Hc. apply (in_keys_contains _ status_eqb_eq) in Hc.
    now destruct (grouped_contains d l c G Hc).
Qed.
End GroupSizes.

(** X2: each of the two comparisons is a strict total order on its tags:
    swapping the arguments negates the result, and -1 is transitive. *)
Theorem compare_strict_order :
  (forall a b,
      DataRules.compare_data_sources b a
      = (c <- DataRules.compare_data_sources a b ;; Ok (- c)%Z)) /\
  (forall a b c,
      DataRules.compare_data_sources a b = Ok (-1)%Z ->
      DataRules.compare_data_sources b c = Ok (-1)%Z ->
      DataRules.compare_data_sources a c = Ok (-1)%Z) /\
  (forall s t,
      DataRules.compare_confirmation_status t s
      = (c <- DataRules.compare_confirmation_status s t ;; Ok (- c)%Z)) /\
  (forall s t u,
      DataRules.compare_confirmation_status s t = Ok (-1)%Z ->
      DataRules.compare_confirmation_status t u = Ok (-1)%Z ->
      DataRules.compare_confirmation_status s u = Ok (-1)%Z).
Proof.
  repeat match goal with |- _ /\ _ => split end.
  - intros [] []; reflexivity.
  - intros [] [] [] H1 H2; solve [reflexivity | discriminate H1 | discriminate H2].
  - intros [] []; reflexivity.
  - intros [] [] [] H1 H2; solve [reflexivity | discriminate H1 | discriminate H2].
Qed.

Lemma compare_strict_order_witness :
  DataRules.compare_data_sources DataSource.FSIN DataSource.AUDIT_RU
  = Ok (-1)%Z.
Proof.
  destruct compare_strict_order as (_ & Htrans & _).
  apply (Htrans DataSource.FSIN DataSource.ROSSTAT DataSource.AUDIT_RU);
    reflexivity.
Defined.

Section Pairs.
Context {V : Type}.

Lemma select_simpler (l : list (data_point V)) :
  l <> [] ->
  exists r, select_by_source_then_recency l = Some r /\
            select_most_relevant_data l = Ok r.
Proof.
  intros Hne. destruct (select_cascade l Hne) as (r & Hc & Hsel).
  rewrite cascade_simpler in Hc. eauto.
Qed.

Lemma simpler_pair (x y : data_point V) :
  select_by_source_then_recency [x; y] =
  Some (if source_rank x <? source_rank y then x
        else if source_rank y <? source_rank x then y
        else later x y).
Proof.
  unfold select_by_source_then_recency, best_by. cbn [minimum filter].
  destruct (source_rank x <? source_rank y) eqn:E1.
  - apply Nat.ltb_lt in E1.
    replace (Nat.min (source_rank x) (source_rank y)) with (source_rank x) by lia.
    rewrite Nat.eqb_refl.
    replace (source_rank y =? source_rank x) with false
      by (symmetry; apply Nat.eqb_neq; lia).
    reflexivity.
  - apply Nat.ltb_ge in E1.
    replace (Nat.min (source_rank x) (source_rank y)) with (source_rank y) by lia.
    rewrite Nat.eqb_refl.
    destruct (source_rank y <? source_rank x) eqn:E2.
    + apply Nat.ltb_lt in E2.
      replace (source_rank x =? source_rank y) with false
        by (symmetry; apply Nat.eqb_neq; lia).
      reflexivity.
    + apply Nat.ltb_ge in E2.
      replace (source_rank x =? source_rank y) with true
        by (symmetry; apply Nat.eqb_eq; lia).
      reflexivity.
Qed.

End Pairs.

Section Chunks.
Context {V : Type}.

Lemma later_assoc (x y z : data_point V) :
  later x (later y z) = later (later x y) z.
Proof.
  unfold later.
  destruct (timestamp y <? timestamp z)%Z eqn:Eyz;
    destruct (timestamp x <? timestamp y)%Z eqn:Exy;
    rewrite ?Eyz; try reflexivity;
    destruct (timestamp x <? timestamp z)%Z eqn:Exz; try reflexivity;
    rewrite ?Z.ltb_lt, ?Z.ltb_ge in *; lia.
Qed.

Lemma latest_app (x y : data_point V) (l l' : list (data_point V)) :
  latest x (l ++ y :: l') = later (latest x l) (latest y l').
Proof.
  revert x. induction l as [|z l IH]; intros x; [reflexivity|].
  cbn [app latest]. rewrite IH. apply later_assoc.
Qed.

Lemma filter_none {A : Type} (p : A -> bool) (l : list A) :
  (forall x, In x l -> p x = false) -> filter p l = [].
Proof.
  induction l as [|x l IH]; intros H; [reflexivity|].
  cbn. rewrite H by now left. apply IH. intros; apply H. now right.
Qed.

(** The members of a part that reach the least rank of the whole. *)
Lemma filter_least_part (l : list (data_point V)) (r : data_point V) (m : nat) :
  In r (best_by source_rank l) -> m <= source_rank r ->
  filter (fun p => source_rank p =? m) l =
  if source_rank r =? m then best_by source_rank l else [].
Proof.
  intros Hr Hm. apply best_by_In in Hr. destruct Hr as [Hin Hlow].
  destruct (source_rank r =? m) eqn:E.
  - apply Nat.eqb_eq in E. subst m. symmetry. apply best_by_filter; eauto.
  - apply Nat.eqb_neq in E. apply filter_none. intros y Hy.
    apply Nat.eqb_neq. specialize (Hlow y Hy). lia.
Qed.

Lemma simpler_app (l1 l2 : list (data_point V)) (r1 r2 : data_point V) :
  select_by_source_then_recency l1 = Some r1 ->
  select_by_source_then_recency l2 = Some r2 ->
  select_by_source_then_recency (l1 ++ l2)
  = select_by_source_then_recency [r1; r2].
Proof.
  unfold select_by_source_then_recency at 1 2. intros H1 H2.
  pose proof (latest_of_In _ _ H1) as Hb1.
  pose proof (latest_of_In _ _ H2) as Hb2.
  pose proof Hb1 as Hs1. apply best_by_In in Hs1. destruct Hs1 as [Hin1 Hlow1].
  pose proof Hb2 as Hs2. apply best_by_In in Hs2. destruct Hs2 as [Hin2 Hlow2].
  rewrite simpler_pair. unfold select_by_source_then_recency.
  set (m := Nat.min (source_rank r1) (source_rank r2)).
  rewrite (best_by_filter source_rank (l1 ++ l2) m).
  - rewrite filter_app.
    rewrite (filter_least_part l1 r1 m Hb1) by (subst m; lia).
    rewrite (filter_least_part l2 r2 m Hb2) by (subst m; lia).
    destruct (source_rank r1 <? source_rank r2) eqn:E1.
    + apply Nat.ltb_lt in E1.
      replace (source_rank r1 =? m) with true
        by (symmetry; apply Nat.eqb_eq; subst m; lia).
      replace (source_rank r2 =? m) with false
        by (symmetry; apply Nat.eqb_neq; subst m; lia).
      now rewrite app_nil_r.
    + apply Nat.ltb_ge in E1.
      replace (source_rank r2 =? m) with true
        by (symmetry; apply Nat.eqb_eq; subst m; lia).
      destruct (source_rank r2 <? source_rank r1) eqn:E2.
      * apply Nat.ltb_lt in E2.
        replace (source_rank r1 =? m) with false
          by (symmetry; apply Nat.eqb_neq; subst m; lia).
        assumption.
      * apply Nat.ltb_ge in E2.
        replace (source_rank r1 =? m) with true
          by (symmetry; apply Nat.eqb_eq; subst m; lia).
        destruct (best_by source_rank l1) as [|a1 t1]; [discriminate|].
        destruct (best_by source_rank l2) as [|a2 t2]; [discriminate|].
        cbn in H1, H2. injection H1 as <-. injection H2 as <-.
        cbn [app latest_of]. now rewrite latest_app.
  - destruct (Nat.le_ge_cases (source_rank r1) (source_rank r2)).
    + exists r1. split; [apply in_or_app; now left|subst m; lia].
    + exists r2. split; [apply in_or_app; now right|subst m; lia].
  - intros y Hy. apply in_app_or in Hy. destruct Hy as [Hy|Hy].
    + specialize (Hlow1 y Hy). subst m. lia.
    + specialize (Hlow2 y Hy). subst m. lia.
Qed.

Lemma select_ok_simpler (l : list (data_point V)) (r : data_point V) :
  select_most_relevant_data l = Ok r ->
  l <> [] /\ select_by_source_then_recency l = Some r.
Proof.
  intros Hsel. assert (l <> []) as Hne.
  { intros ->. discriminate Hsel. }
  split; [assumption|].
  destruct (select_simpler l Hne) as (r' & Hr' & Hsel'). congruence.
Qed.

(** X4: the selection can be run on parts of the input: selecting from the
    concatenation of two lists gives what selecting between the two
    selections of the lists gives. *)
Theorem select_app (l1 l2 : list (data_point V)) (r1 r2 : data_point V) :
  select_most_relevant_data l1 = Ok r1 ->
  select_most_relevant_data l2 = Ok r2 ->
  select_most_relevant_data (l1 ++ l2) = select_most_relevant_data [r1; r2].
Proof.
  intros H1 H2.
  apply select_ok_simpler in H1. destruct H1 as [Hne1 H1].
  apply select_ok_simpler in H2. destruct H2 as [Hne2 H2].
  destruct (select_simpler (l1 ++ l2)) as (r & Hr & Hsel).
  { destruct l1; [congruence|discriminate]. }
  destruct (select_simpler [r1; r2]) as (r' & Hr' & Hsel'); [discriminate|].
  rewrite Hsel, Hsel'. f_equal.
  rewrite (simpler_app l1 l2 r1 r2 H1 H2) in Hr. congruence.
Qed.

(** X5: the order of the input matters on exact ties only: when no two
    members have both the same source and the same timestamp, every
    permutation of the input has the same selection. *)
Theorem select_permutation (l l' : list (data_point V)) :
  Permutation l l' -> no_exact_ties l ->
  select_most_relevant_data l = select_most_relevant_data l'.
Proof.
  intros Hperm Hties. destruct l as [|p l0].
  { apply Permutation_nil in Hperm. now subst l'. }
  set (l := p :: l0) in *.
  assert (l' <> []) as Hne'.
  { intros ->. apply Permutation_sym, Permutation_nil in Hperm. discriminate. }
  destruct (select_simpler l) as (r & Hr & Hsel); [discriminate|].
  destruct (select_simpler l' Hne') as (r' & Hr' & Hsel').
  rewrite Hsel, Hsel'. f_equal.
  apply select_by_source_then_recency_spec in Hr, Hr'.
  destruct Hr as (Hin & Hlow & i & _ & Hmax & _).
  destruct Hr' as (Hin' & Hlow' & i' & _ & Hmax' & _).
  assert (In r' l) as Hr'l by (apply (Permutation_in _ (Permutation_sym Hperm) Hin')).
  assert (In r l') as Hrl' by (apply (Permutation_in _ Hperm Hin)).
  assert (source_rank r = source_rank r') as Hrank.
  { specialize (Hlow r' Hr'l). specialize (Hlow' r Hrl'). lia. }
  apply Hties; try assumption.
  - now apply rank_inj.
  - assert (timestamp r' <= timestamp r)%Z.
    { apply Hmax. apply filter_In. split; [assumption|].
      apply Nat.eqb_eq. congruence. }
    assert (timestamp r <= timestamp r')%Z.
    { apply Hmax'. apply filter_In. split; [assumption|].
      now apply Nat.eqb_eq. }
    lia.
Qed.
End Chunks.

Lemma select_app_witness :
  select_most_relevant_data (test_data ++ tied_data)
  = select_most_relevant_data
      [ mk_point 150%Z DataSource.FSIN 8%Z; mk_point 2%Z DataSource.ROSSTAT 7%Z ].
Proof. apply (select_app test_data tied_data); reflexivity. Defined.

Lemma select_permutation_witness :
  select_most_relevant_data test_data = select_most_relevant_data (rev test_data).
Proof.
  apply (select_permutation test_data (rev test_data)).
  - apply Permutation_rev.
  - intros x y [<-|[<-|[<-|[]]]] [<-|[<-|[<-|[]]]] Hs Ht;
      solve [reflexivity | discriminate Hs].
Defined.

(** ** Properties of [universal_reader.py] *)

Module UniversalReaderFacts.
Import String UniversalReader.
Local Open Scope string_scope.

Section Registry.

Lemma fold_set_get (r : reader) (fmts : list string)
    (d : list (string * reader)) (k : string) :
  Dict.get String.eqb k
    (fold_left (fun d fmt => Dict.set String.eqb fmt r d) fmts d)
  = if existsb (String.eqb k) fmts then Ok r else Dict.get String.eqb k d.
Proof.
  revert d. induction fmts as [|f fmts IH]; intros d; [reflexivity|].
  cbn [fold_left existsb]. rewrite IH.
  destruct (String.eqb_spec k f) as [->|Hkf]; cbn [orb].
  - rewrite (get_set_same _ String.eqb_eq). now destruct (existsb _ fmts).
  - now rewrite (get_set_other _ String.eqb_eq) by assumption.
Qed.

Lemma fold_set_contains (r : reader) (fmts : list string)
    (d : list (string * reader)) (k : string) :
  Dict.contains String.eqb k
    (fold_left (fun d fmt => Dict.set String.eqb fmt r d) fmts d)
  = existsb (String.eqb k) fmts || Dict.contains String.eqb k d.
Proof.
  revert d. induction fmts as [|f fmts IH]; intros d; [reflexivity|].
  cbn [fold_left existsb]. rewrite IH.
  destruct (String.eqb_spec k f) as [->|Hkf]; cbn [orb].
  - rewrite (contains_set_same _ String.eqb_eq). apply orb_true_r.
  - now rewrite (contains_set_other _ String.eqb_eq) by assumption.
Qed.

(** X6: after a reader is registered, [get_reader] returns it for every
    path whose extension is one of its formats, whatever reader had the
    format before, and answers as before for every other path. *)
Theorem get_reader_register (extension_of : string -> string)
    (readers : list (string * reader)) (r : reader) (file_path : string) :
  get_reader extension_of (register_reader readers r) file_path
  = if existsb (String.eqb (extension_of file_path)) (supported_formats r)
    then Return r
    else get_reader extension_of readers file_path.
Proof.
  unfold get_reader, register_reader.
  rewrite fold_set_contains, fold_set_get.
  now destruct (existsb _ (supported_formats r)).
Qed.

(** X7: [get_reader] raises nothing but the [ValueError] of an extension
    that is no key of the registry, and a reader it returns is the one the
    registry holds for the extension. *)
Theorem get_reader_outcome (extension_of : string -> string)
    (readers : list (string * reader)) (file_path : string) :
  match get_reader extension_of readers file_path with
  | Return r =>
      Dict.get String.eqb (extension_of file_path) readers = Ok r /\
      In (extension_of file_path) (Dict.keys readers)
  | Throw e =>
      e = ValueError (extension_of file_path) /\
      ~ In (extension_of file_path) (Dict.keys readers)
  end.
Proof.
  unfold get_reader.
  destruct (Dict.contains String.eqb (extension_of file_path) readers) eqn:E.
  - destruct (contains_get _ _ _ E) as (r & Hr). rewrite Hr. cbn.
    split; [reflexivity|]. now apply (in_keys_contains _ String.eqb_eq).
  - split; [reflexivity|]. rewrite (in_keys_contains _ String.eqb_eq).
    congruence.
Qed.

Lemma fold_set_keys (r : reader) (fmts : list string)
    (d : list (string * reader)) :
  exists extra,
    Dict.keys (fold_left (fun d fmt => Dict.set String.eqb fmt r d) fmts d)
    = (Dict.keys d ++ extra)%list /\
    forall f, In f extra <-> In f fmts /\ ~ In f (Dict.keys d).
Proof.
  revert d. induction fmts as [|f fmts IH]; intros d.
  - exists []. cbn. rewrite app_nil_r. split; [reflexivity|]. tauto.
  - cbn [fold_left].
    destruct (IH (Dict.set String.eqb f r d)) as (extra & Hk & Hex).
    rewrite (keys_set String.eqb) in Hk, Hex.
    destruct (Dict.contains String.eqb f d) eqn:E.
    + exists extra. split; [assumption|]. intros g. rewrite Hex.
      apply (in_keys_contains _ String.eqb_eq) in E.
      cbn [In]. split; [tauto|]. intros [[<-|Hg] Hn]; tauto.
    + exists (f :: extra). rewrite <- app_assoc in Hk.
      split; [assumption|]. intros g. cbn [In]. rewrite Hex.
      assert (~ In f (Dict.keys d)) as Hf.
      { rewrite (in_keys_contains _ String.eqb_eq). congruence. }
      rewrite in_app_iff. cbn [In].
      destruct (String.eqb_spec f g) as [->|Hfg]; [tauto|]. tauto.
Qed.

Lemma fold_set_NoDup (r : reader) (fmts : list string)
    (d : list (string * reader)) :
  NoDup (Dict.keys d) ->
  NoDup (Dict.keys
           (fold_left (fun d fmt => Dict.set String.eqb fmt r d) fmts d)).
Proof.
  revert d. induction fmts as [|f fmts IH]; intros d Hd; [assumption|].
  cbn [fold_left]. apply IH. now apply (NoDup_keys_set _ String.eqb_eq).
Qed.

(** X8: registering a reader keeps the formats that were available, in
    their order, and appends the formats of the reader that were not;
    no format is ever listed twice. *)
Theorem register_reader_formats (readers : list (string * reader))
    (r : reader) :
  NoDup (Dict.keys readers) ->
  NoDup (Dict.keys (register_reader readers r)) /\
  exists extra,
    Dict.keys (register_reader readers r)
    = (Dict.keys readers ++ extra)%list /\
    forall f, In f extra <->
              In f (supported_formats r) /\ ~ In f (Dict.keys readers).
Proof.
  intros Hd. split.
  - now apply fold_set_NoDup.
  - apply fold_set_keys.
Qed.

Lemma fold_set_fixed (r : reader) (fmts : list string)
    (d : list (string * reader)) :
  (forall f, In f fmts -> Dict.get String.eqb f d = Ok r) ->
  fold_left (fun d fmt => Dict.set String.eqb fmt r d) fmts d = d.
Proof.
  induction fmts as [|f fmts IH]; intros H; [reflexivity|].
  cbn [fold_left]. rewrite set_same_value by (apply H; now left).
  apply IH. intros g Hg. apply H. now right.
Qed.

(** X9: registering a reader twice is registering it once. *)
Theorem register_reader_idempotent (readers : list (string * reader))
    (r : reader) :
  register_reader (register_reader readers r) r = register_reader readers r.
Proof.
  unfold register_reader at 1. apply fold_set_fixed.
  intros f Hf. unfold register_reader. rewrite fold_set_get.
  replace (existsb (String.eqb f) (supported_formats r)) with true;
    [reflexivity|].
  symmetry. apply existsb_exists. exists f. split; [assumption|].
  apply String.eqb_refl.
Qed.

(** X10: the readers registered by default do not shadow one another:
    every format of each of them leads to that reader, the available
    formats are the formats of the five readers in registration order, and
    the formats of [YAMLReader] are rejected until it is registered. *)
Theorem default_readers (extension_of : string -> string) (r : reader)
    (fmt file_path : string) :
  In r [CSVReader; ExcelReader; JSONReader; SQLiteReader; XMLReader] ->
  In fmt (supported_formats r) ->
  extension_of file_path = fmt ->
  get_reader extension_of FileReaderFactory file_path = Return r /\
  Dict.keys FileReaderFactory
  = List.concat (map supported_formats
              [CSVReader; ExcelReader; JSONReader; SQLiteReader; XMLReader]) /\
  (forall p, In (extension_of p) (supported_formats YAMLReader) ->
             get_reader extension_of FileReaderFactory p
             = Throw (ValueError (extension_of p)) /\
             get_reader extension_of
               (register_reader FileReaderFactory YAMLReader) p
             = Return YAMLReader) /\
  get_reader extension_of (register_reader FileReaderFactory YAMLReader)
    file_path = Return r.
Proof.
  intros Hr Hfmt Hext.
  assert (get_reader extension_of FileReaderFactory file_path = Return r) as Hget.
  { unfold get_reader. rewrite Hext. cbn in Hr.
    repeat (destruct Hr as [<-|Hr]; [cbn in Hfmt;
      repeat (destruct Hfmt as [<-|Hfmt]; [reflexivity|]); destruct Hfmt|]).
    destruct Hr. }
  split; [assumption|]. split; [reflexivity|]. split.
  - intros p Hp. rewrite get_reader_register. unfold get_reader.
    cbn in Hp. destruct Hp as [<-|[<-|[]]]; split; reflexivity.
  - rewrite get_reader_register, Hext.
    cbn in Hr.
    repeat (destruct Hr as [<-|Hr]; [cbn in Hfmt;
      repeat (destruct Hfmt as [<-|Hfmt]; [exact Hget|]); destruct Hfmt|]).
    destruct Hr.
Qed.
End Registry.

Section Processor.
Variable extension_of : string -> string.
Variables D Kw : Type.
Variable path_exists : string -> bool.
Variable read : reader -> string -> Kw -> outcome D.

Local Arguments factory {D} r.
Local Arguments loaded_data {D} r.

(** X11: [read_file] never changes the registry; a call that raises
    leaves the processor as it was, and raises [FileNotFoundError] when the
    path does not exist, whatever its extension is; a call that returns
    data has stored them under the path and has left the data stored under
    every other path as they were. *)
Theorem read_file_outcome (self : RelationalDataProcessor D)
    (file_path : string) (kwargs : Kw) :
  let (self', out) :=
    read_file extension_of D Kw path_exists read self file_path kwargs in
  factory self' = factory self /\
  match out with
  | Return data =>
      path_exists file_path = true /\
      Dict.get String.eqb file_path (loaded_data self') = Ok data /\
      forall q, q <> file_path ->
                Dict.get String.eqb q (loaded_data self')
                = Dict.get String.eqb q (loaded_data self)
  | Throw e =>
      self' = self /\
      (path_exists file_path = false -> e = FileNotFoundError file_path)
  end.
Proof.
  unfold read_file. destruct (path_exists file_path) eqn:Hex; cbn [negb].
  - destruct (get_reader extension_of (factory self) file_path) as [r|e].
    + destruct (read r file_path kwargs) as [data|e].
      * split; [reflexivity|]. split; [reflexivity|]. cbn [loaded_data]. split.
        -- apply (get_set_same _ String.eqb_eq).
        -- intros q Hq. now apply (get_set_other _ String.eqb_eq).
      * repeat split. discriminate.
    + repeat split. discriminate.
  - repeat split.
Qed.
End Processor.

Section XmlFacts.
Variable strip : string -> string.

Lemma parse_unfold (frames : nat) (t : string) (a : list (string * string))
    (x : option string) (cs : list element) :
  parse_xml_element strip (S frames) (Element t a x cs)
  = (result <~ parse_children strip frames cs
                 (if negb (is_empty a) then update [] a else []) ;;
     finish strip frames x result).
Proof. reflexivity. Qed.

Lemma set_nonempty (k : string) (v : xvalue) (d : list (string * xvalue)) :
  Dict.set String.eqb k v d <> [].
Proof.
  destruct d as [|[k' v'] d]; cbn; [discriminate|].
  destruct (String.eqb k' k); discriminate.
Qed.

Lemma lookup_some (k : string) (d : list (string * xvalue)) (v : xvalue) :
  lookup k d = Some v <->
  Dict.get String.eqb k d = Ok v.
Proof.
  unfold lookup. destruct (Dict.get String.eqb k d); split; congruence.
Qed.

Lemma lookup_none (k : string) (d : list (string * xvalue)) :
  lookup k d = None <-> Dict.contains String.eqb k d = false.
Proof.
  unfold lookup. split.
  - destruct (Dict.contains String.eqb k d) eqn:E; [|reflexivity].
    destruct (contains_get _ _ _ E) as (v & ->). discriminate.
  - intros E. destruct (Dict.get String.eqb k d) as [v|e] eqn:G; [|reflexivity].
    apply get_contains in G. congruence.
Qed.

(** The loop body never raises. *)
Lemma add_child_returns (d : list (string * xvalue)) (t : string)
    (c : xvalue) :
  exists d', add_child d t c = Return d' /\ d' <> [].
Proof.
  unfold add_child.
  destruct (Dict.contains String.eqb t d) eqn:E.
  - destruct (contains_get _ _ _ E) as (cur & Hcur). rewrite Hcur. cbn [lift obind].
    destruct (is_list cur) eqn:L; cbn [negb].
    + rewrite Hcur. cbn [lift obind]. destruct cur; try discriminate L.
      eexists. split; [reflexivity|apply set_nonempty].
    + rewrite (get_set_same _ String.eqb_eq). cbn [lift obind].
      eexists. split; [reflexivity|apply set_nonempty].
  - eexists. split; [reflexivity|apply set_nonempty].
Qed.

Lemma add_child_other (d d' : list (string * xvalue)) (t k : string)
    (c : xvalue) :
  add_child d t c = Return d' -> k <> t -> lookup k d' = lookup k d.
Proof.
  unfold add_child, lookup. intros H Hk.
  destruct (Dict.contains String.eqb t d) eqn:E.
  - destruct (contains_get _ _ _ E) as (cur & Hcur).
    rewrite Hcur in H. cbn [lift obind] in H.
    destruct (is_list cur) eqn:L; cbn [negb] in H.
    + rewrite Hcur in H. cbn [lift obind] in H.
      destruct cur; try discriminate L. injection H as <-.
      now rewrite (get_set_other _ String.eqb_eq).
    + rewrite (get_set_same _ String.eqb_eq) in H. cbn [lift obind] in H.
      injection H as <-. now rewrite !(get_set_other _ String.eqb_eq).
  - injection H as <-. now rewrite (get_set_other _ String.eqb_eq).
Qed.

Lemma add_child_same (d d' : list (string * xvalue)) (k : string)
    (c : xvalue) (attribute : option xvalue) (ds : list xvalue) :
  add_child d k c = Return d' ->
  lookup k d = gathered attribute ds ->
  (forall v, attribute = Some v -> is_list v = false) ->
  Forall (fun v => is_list v = false) ds ->
  lookup k d' = gathered attribute (ds ++ [c])%list.
Proof.
  unfold add_child. intros H Hl Hattr Hds.
  destruct (Dict.contains String.eqb k d) eqn:E.
  - destruct (contains_get _ _ _ E) as (cur & Hcur).
    rewrite Hcur in H. cbn [lift obind] in H.
    assert (lookup k d = Some cur) as Hcur' by now apply lookup_some.
    rewrite Hcur' in Hl.
    destruct (is_list cur) eqn:L; cbn [negb] in H.
    + rewrite Hcur in H. cbn [lift obind] in H.
      destruct cur as [| | |items]; try discriminate L. injection H as <-.
      unfold lookup. rewrite (get_set_same _ String.eqb_eq).
      destruct attribute as [v|]; destruct ds as [|d1 [|d2 ds]];
        cbn in Hl; try discriminate Hl; injection Hl as Hl.
      * specialize (Hattr v eq_refl). subst v. discriminate Hattr.
      * now subst items.
      * now subst items.
      * inversion Hds as [|? ? Hd1 _]. subst d1. discriminate Hd1.
      * now subst items.
    + rewrite (get_set_same _ String.eqb_eq) in H. cbn [lift obind] in H.
      injection H as <-.
      unfold lookup. rewrite (get_set_same _ String.eqb_eq).
      destruct attribute as [v|]; destruct ds as [|d1 [|d2 ds]];
        cbn in Hl; try discriminate Hl; injection Hl as Hl; subst cur;
        try discriminate L; reflexivity.
  - injection H as <-.
    apply lookup_none in E. rewrite E in Hl.
    unfold lookup. rewrite (get_set_same _ String.eqb_eq).
    destruct attribute as [v|]; destruct ds as [|d1 [|d2 ds]];
      cbn in Hl; try discriminate Hl. reflexivity.
Qed.

Lemma update_values (a : list (string * string)) (d : list (string * xvalue))
    (k : string) (v : xvalue) :
  lookup k (update d a) = Some v ->
  lookup k d = Some v \/ exists s, v = XStr s.
Proof.
  revert d. induction a as [|[k0 s0] a IH]; intros d H; [now left|].
  cbn [update fold_left fst snd] in H. apply IH in H.
  destruct H as [H|H]; [|now right].
  destruct (String.eqb_spec k k0) as [->|Hk].
  - unfold lookup in H. rewrite (get_set_same _ String.eqb_eq) in H.
    injection H as <-. right. eauto.
  - left. unfold lookup in *.
    now rewrite (get_set_other _ String.eqb_eq) in H.
Qed.

Lemma has_text_some (x : option string) :
  has_text strip x = true -> exists s, x = Some s.
Proof. destruct x as [s|]; [eauto|discriminate]. Qed.

(** What the end of the method does with the dict [d1] built by the loop. *)
Lemma finish_cases (frames : nat) (x : option string)
    (d1 : list (string * xvalue)) :
  match finish strip frames x d1 with
  | Throw err =>
      err = RecursionError /\ frames = 0
  | Return v =>
      is_list v = false /\ v <> XDict [] /\
      forall d, v = XDict d ->
        (d = d1 /\
         has_text strip x && negb (existsb is_dict (map snd d1)) = false) \/
        (exists s, x = Some s /\ has_text strip x = true /\
                   existsb is_dict (map snd d1) = false /\
                   d = Dict.set String.eqb "_text" (XStr (strip s)) d1)
  end.
Proof.
  unfold finish, any_dict.
  destruct (has_text strip x) eqn:T.
  - destruct (has_text_some x T) as (s & ->). cbn [text_strip obind].
    destruct (is_empty d1) eqn:E; cbn [andb].
    + repeat split; try discriminate.
    + destruct frames as [|frames]; cbn [obind]; [now split|].
      destruct (existsb is_dict (map snd d1)) eqn:Dc; cbn [negb obind].
      * rewrite E. cbn [negb]. repeat split; try discriminate.
        -- intros [= ->]. discriminate E.
        -- intros d [= <-]. left. now split.
      * pose proof (set_nonempty "_text" (XStr (strip s)) d1) as Hne.
        destruct (Dict.set String.eqb "_text" (XStr (strip s)) d1) eqn:S;
          [congruence|].
        cbn [is_empty negb]. repeat split; try discriminate.
        intros d [= <-]. right. exists s. now repeat split.
  - rewrite andb_false_r. cbn [obind].
    destruct (is_empty d1) eqn:E; cbn [negb].
    + repeat split; discriminate.
    + repeat split; try discriminate.
      * intros [= ->]. discriminate E.
      * intros d [= <-]. left. now split.
Qed.



(** What the method returns is no list and no empty dict. *)
Lemma parse_shape (frames : nat) (e : element) (v : xvalue) :
  parse_xml_element strip frames e = Return v ->
  is_list v = false /\ v <> XDict [].
Proof.
  destruct frames as [|frames]; [discriminate|].
  destruct e as [t a x cs]. rewrite parse_unfold.
  destruct (parse_children strip frames cs _) as [d|err]; [|discriminate].
  cbn [obind]. pose proof (finish_cases frames x d) as H.
  destruct (finish strip frames x d); [|discriminate].
  intros [= <-]. tauto.
Qed.





Lemma value_of_parse (frames : nat) (c : element) (v : xvalue) :
  parse_xml_element strip frames c = Return v -> value_of strip frames c = v.
Proof. unfold value_of. now intros ->. Qed.

Lemma parse_children_gathered (frames : nat) (k : string)
    (attribute : option xvalue) (cs : list element) :
  (forall v, attribute = Some v -> is_list v = false) ->
  forall d d' ds,
    parse_children strip frames cs d = Return d' ->
    lookup k d = gathered attribute ds ->
    Forall (fun v => is_list v = false) ds ->
    lookup k d'
    = gathered attribute
        (ds ++ map (value_of strip frames)
                 (filter (fun c => tag c =? k) cs))%list.
Proof.
  intros Hattr. induction cs as [|c cs IH]; intros d d' ds H Hl Hds.
  - cbn in H. injection H as <-. cbn. now rewrite app_nil_r.
  - cbn [parse_children] in H.
    destruct (parse_xml_element strip frames c) as [v|err] eqn:Hv;
      [|discriminate H].
    cbn [obind] in H.
    destruct (parse_shape frames c v Hv) as [Hlv _].
    destruct (add_child_returns d (tag c) v) as (d1 & Hd1 & _).
    rewrite Hd1 in H. cbn [obind] in H.
    cbn [filter]. destruct (String.eqb_spec (tag c) k) as [Hk|Hk].
    + rewrite Hk in Hd1. cbn [map].
      rewrite (value_of_parse frames c v Hv).
      change (v :: ?l) with ([v] ++ l)%list. rewrite app_assoc.
      apply (IH d1 d' (ds ++ [v])%list H).
      * now apply (add_child_same d d1 k v attribute ds).
      * apply Forall_app. split; [assumption|]. now constructor.
    + apply (IH d1 d' ds H); [|assumption].
      rewrite <- Hl. apply (add_child_other d d1 (tag c) k v Hd1).
      congruence.
Qed.

Lemma no_dict_set (k s : string) (d : list (string * xvalue)) :
  existsb is_dict (map snd d) = false ->
  existsb is_dict (map snd (Dict.set String.eqb k (XStr s) d)) = false.
Proof.
  induction d as [|[k' v'] d IH]; cbn; [reflexivity|].
  intros H. apply orb_false_elim in H. destruct H as [Hv Hd].
  destruct (String.eqb k' k); cbn; [assumption|].
  rewrite Hv. now apply IH.
Qed.

(** X13: in the dict that [_parse_xml_element] returns for an element,
    a key holds the attribute of that name, if any, followed by what the
    children of that tag were parsed to, in document order: a single value
    stands for itself, several ones form a list, and a key with no
    attribute and no child is absent.  The one exception is the key
    ['_text'] of an element that has text, when no value of the dict is a
    dict: it holds the stripped text, whatever attribute or children of
    that name there are. *)
Theorem children_gathered (frames : nat) (t : string)
    (a : list (string * string)) (x : option string) (cs : list element)
    (d : list (string * xvalue)) (k : string) :
  parse_xml_element strip (S frames) (Element t a x cs) = Return (XDict d) ->
  lookup k d
  = if (k =? "_text") && has_text strip x
       && negb (existsb is_dict (map snd d))
    then option_map (fun s => XStr (strip s)) x
    else gathered (lookup k (update [] a))
           (map (value_of strip frames) (filter (fun c => tag c =? k) cs)).
Proof.
  rewrite parse_unfold. intros H.
  replace (if negb (is_empty a) then update [] a else [])
    with (update [] a) in H by now destruct a.
  destruct (parse_children strip frames cs (update [] a)) as [d1|e] eqn:Hd1;
    [|discriminate H].
  cbn [obind] in H.
  pose proof (finish_cases frames x d1) as Hf. rewrite H in Hf.
  destruct Hf as (_ & _ & Hf).
  assert (lookup k d1
          = gathered (lookup k (update [] a))
              (map (value_of strip frames)
                 (filter (fun c => tag c =? k) cs))) as Hloop.
  { apply (parse_children_gathered frames k (lookup k (update [] a)) cs)
      with (d := update [] a) (ds := @nil xvalue); try assumption.
    - intros v Hv'. apply update_values in Hv'.
      destruct Hv' as [Hv'|(s & ->)]; [discriminate Hv'|reflexivity].
    - now destruct (lookup k (update [] a)).
    - constructor. }
  destruct (Hf d eq_refl) as [[-> Hno]|(s & -> & T & Dc & ->)].
  - rewrite <- andb_assoc, Hno, andb_false_r. exact Hloop.
  - rewrite T, (no_dict_set "_text" (strip s) d1 Dc). cbn [negb andb option_map].
    rewrite andb_true_r.
    destruct (String.eqb_spec k "_text") as [->|Hk].
    + unfold lookup. now rewrite (get_set_same _ String.eqb_eq).
    + rewrite <- Hloop. unfold lookup.
      now rewrite (get_set_other _ String.eqb_eq).
Qed.
End XmlFacts.

Section SqliteFacts.
Variable DF : Type.
Variable read_sql_query : string -> outcome DF.

Lemma read_tables_named (name : string) (df : DF) (tables : list string) :
  read_sql_query name = Return df ->
  read_tables DF read_sql_query (Some name) tables [(name, df)]
  = Return [(name, df)].
Proof.
  intros Hq. induction tables as [|t tables IH]; [reflexivity|].
  cbn [read_tables]. unfold read_table.
  destruct (String.eqb_spec t name) as [->|Ht]; cbn [obind]; [|exact IH].
  rewrite Hq. cbn [obind Dict.set]. now rewrite String.eqb_refl.
Qed.

(** X14: [read] of [SQLiteReader] with a table name returns a dict with
    that table alone when the data base has it, raising what the query of
    that table raises; when the data base has no table of that name it
    returns the empty dict, raises nothing and queries nothing. *)
Theorem sqlite_read_named (tables : list string) (name : string) :
  SQLiteReader_read DF read_sql_query tables (Some name)
  = if existsb (String.eqb name) tables
    then df <~ read_sql_query name ;; Return [(name, df)]
    else Return [].
Proof.
  unfold SQLiteReader_read.
  induction tables as [|t tables IH]; [reflexivity|].
  cbn [existsb]. destruct (String.eqb_spec name t) as [<-|Ht]; cbn [orb].
  - cbn [read_tables]. unfold read_table. rewrite String.eqb_refl.
    destruct (read_sql_query name) as [df|e] eqn:Hq; cbn [obind]; [|reflexivity].
    cbn [Dict.set]. now apply read_tables_named.
  - cbn [read_tables]. unfold read_table.
    replace (t =? name) with false
      by (symmetry; apply String.eqb_neq; congruence).
    cbn [obind]. exact IH.
Qed.
End SqliteFacts.

(** ** The module on sample inputs *)

Example available_formats :
  Dict.keys FileReaderFactory
  = ["csv"; "tsv"; "txt"; "xlsx"; "xls"; "json"; "db"; "sqlite"; "sqlite3";
     "xml"].
Proof. reflexivity. Qed.

Lemma register_reader_formats_witness :
  NoDup (Dict.keys (register_reader FileReaderFactory YAMLReader)) /\
  exists extra,
    Dict.keys (register_reader FileReaderFactory YAMLReader)
    = (Dict.keys FileReaderFactory ++ extra)%list /\
    forall f, In f extra <->
              In f (supported_formats YAMLReader) /\
              ~ In f (Dict.keys FileReaderFactory).
Proof.
  apply (register_reader_formats FileReaderFactory YAMLReader).
  cbn. repeat constructor; cbn; intuition discriminate.
Defined.

Lemma default_readers_witness :
  get_reader (fun _ => "tsv") FileReaderFactory "table.TSV" = Return CSVReader.
Proof.
  apply (default_readers (fun _ => "tsv") CSVReader "tsv" "table.TSV");
    [cbn; tauto|cbn; tauto|reflexivity].
Defined.

Example parse_sample_element :
  parse_xml_element (fun s => s) 3 sample_element
  = Return (XDict [ ("kind", XStr "a");
                    ("item", XList [XStr "x"; XStr "y"]);
                    ("note", XStr "z") ]).
Proof. reflexivity. Qed.

(** The text of the element takes the place of the child tagged [_text]. *)
Example parse_text_element :
  parse_xml_element (fun s => s) 3 text_element
  = Return (XDict [ ("_text", XStr "hello"); ("b", XStr "y") ]).
Proof. reflexivity. Qed.

(** One frame is not enough for the two levels of [sample_element], nor
    for a leaf whose generator expression needs a frame of its own. *)
Example parse_out_of_frames :
  parse_xml_element (fun s => s) 1 sample_element = Throw RecursionError /\
  parse_xml_element (fun s => s) 2 sample_element
  = parse_xml_element (fun s => s) 3 sample_element /\
  parse_xml_element (fun s => s) 1 (Element "leaf" [("k", "v")] (Some "x") [])
  = Throw RecursionError.
Proof. repeat split. Qed.

Lemma children_gathered_witness :
  lookup "_text" [ ("_text", XStr "hello"); ("b", XStr "y") ]
  = Some (XStr "hello") /\
  lookup "item"
    [ ("kind", XStr "a"); ("item", XList [XStr "x"; XStr "y"]);
      ("note", XStr "z") ]
  = Some (XList [XStr "x"; XStr "y"]).
Proof.
  split.
  - exact (children_gathered (fun s => s) 2 "a" [] (Some "hello")
             [ Element "_text" [] (Some "x") []; Element "b" [] (Some "y") [] ]
             [ ("_text", XStr "hello"); ("b", XStr "y") ] "_text" eq_refl).
  - exact (children_gathered (fun s => s) 2 "list" [("kind", "a")] None
             [ Element "item" [] (Some "x") [];
               Element "item" [] (Some "y") [];
               Element "note" [] (Some "z") [] ]
             [ ("kind", XStr "a"); ("item", XList [XStr "x"; XStr "y"]);
               ("note", XStr "z") ] "item" eq_refl).
Defined.
End UniversalReaderFacts.

(** ** The selection on datetime timestamps *)

Section DictMap.
Context {K V W : Type}.
Variable eqb : K -> K -> bool.
Variable f : V -> W.

Lemma contains_map_values (k : K) (d : list (K * V)) :
  Dict.contains eqb k (map_values f d) = Dict.contains eqb k d.
Proof.
  unfold map_values.
  induction d as [|[k' v'] d IH]; cbn [map Dict.contains fst snd];
    [reflexivity|].
  now destruct (eqb k' k).
Qed.

Lemma get_map_values (k : K) (d : list (K * V)) :
  Dict.get eqb k (map_values f d) = (v <- Dict.get eqb k d ;; Ok (f v)).
Proof.
  unfold map_values.
  induction d as [|[k' v'] d IH]; cbn [map Dict.get fst snd]; [reflexivity|].
  now destruct (eqb k' k).
Qed.

Lemma set_map_values (k : K) (v : V) (d : list (K * V)) :
  Dict.set eqb k (f v) (map_values f d) = map_values f (Dict.set eqb k v d).
Proof.
  unfold map_values.
  induction d as [|[k' v'] d IH]; cbn [map Dict.set fst snd]; [reflexivity|].
  destruct (eqb k' k); cbn [map fst snd]; [reflexivity|]. now rewrite IH.
Qed.

Lemma keys_map_values (d : list (K * V)) :
  Dict.keys (map_values f d) = Dict.keys d.
Proof. unfold Dict.keys, map_values. rewrite map_map. reflexivity. Qed.
End DictMap.

Section SortMap.
Context {A B K : Type}.
Variable ltb : K -> K -> bool.
Variable g : A -> B.

Lemma insert_map_snd (x : K * A) (l : list (K * A)) :
  Py.insert ltb (fst x, g (snd x)) (map (fun kx => (fst kx, g (snd kx))) l)
  = map (fun kx => (fst kx, g (snd kx))) (Py.insert ltb x l).
Proof.
  induction l as [|y l IH]; cbn; [reflexivity|].
  destruct (ltb (fst y) (fst x)); cbn; [|reflexivity]. now rewrite IH.
Qed.

Lemma stable_sort_map_snd (l : list (K * A)) :
  Py.stable_sort ltb (map (fun kx => (fst kx, g (snd kx))) l)
  = map (fun kx => (fst kx, g (snd kx))) (Py.stable_sort ltb l).
Proof.
  induction l as [|x l IH]; cbn; [reflexivity|].
  rewrite IH. apply insert_map_snd.
Qed.
End SortMap.

Section DatedSort.
Context {A : Type}.

Lemma lt_same_kind (a b : Dated.datetime) :
  Dated.is_aware a = Dated.is_aware b ->
  Dated.lt a b = Ok (Dated.instant a <? Dated.instant b)%Z.
Proof. destruct a, b; cbn; congruence. Qed.

Lemma lt_raises (a b : Dated.datetime) (e : exn) :
  Dated.lt a b = Raise e -> e = TypeError.
Proof. destruct a, b; cbn; congruence. Qed.

Lemma insert_same_kind (b : bool) (x : Dated.datetime * A)
    (s : list (Dated.datetime * A)) :
  Dated.is_aware (fst x) = b ->
  Forall (fun kx => Dated.is_aware (fst kx) = b) s ->
  exists s',
    Dated.insert (fun a b => Dated.lt b a) x s = Ok s' /\
    Forall (fun kx => Dated.is_aware (fst kx) = b) s' /\
    on_instants s'
    = Py.insert (fun a b => Z.ltb b a)
        (Dated.instant (fst x), snd x) (on_instants s).
Proof.
  intros Hx. induction 1 as [|y s Hy Hs IH]; cbn [Dated.insert].
  - exists [x]. repeat split. now constructor.
  - rewrite lt_same_kind by congruence. cbn [bind on_instants map Py.insert fst].
    destruct (Dated.instant (fst x) <? Dated.instant (fst y))%Z.
    + destruct IH as (s' & -> & Hs' & Hinst). cbn [bind].
      exists (y :: s'). split; [reflexivity|]. split; [now constructor|].
      cbn [on_instants map]. f_equal. exact Hinst.
    + exists (x :: y :: s). split; [reflexivity|].
      split; [now repeat constructor|reflexivity].
Qed.

(** On datetimes of one kind the sort does not raise and is the sort of
    their instants. *)
Lemma stable_sort_same_kind (b : bool) (l : list (Dated.datetime * A)) :
  Forall (fun kx => Dated.is_aware (fst kx) = b) l ->
  exists s,
    Dated.stable_sort (fun a b => Dated.lt b a) l = Ok s /\
    Forall (fun kx => Dated.is_aware (fst kx) = b) s /\
    on_instants s = Py.stable_sort (fun a b => Z.ltb b a) (on_instants l).
Proof.
  induction 1 as [|x l Hx Hl (s & Hs & Hk & Hinst)]; cbn [Dated.stable_sort].
  - exists []. repeat split. constructor.
  - rewrite Hs. cbn [bind].
    destruct (insert_same_kind b x s Hx Hk) as (s' & Hs' & Hk' & Hinst').
    exists s'. repeat split; try assumption.
    cbn [on_instants map Py.stable_sort]. fold (on_instants l).
    now rewrite <- Hinst.
Qed.

Lemma insert_raises (x : Dated.datetime * A) (s : list (Dated.datetime * A))
    (e : exn) :
  Dated.insert (fun a b => Dated.lt b a) x s = Raise e -> e = TypeError.
Proof.
  induction s as [|y s IH]; cbn [Dated.insert]; [discriminate|].
  destruct (Dated.lt (fst x) (fst y)) as [c|e'] eqn:E; cbn [bind].
  - destruct c; [|discriminate].
    destruct (Dated.insert _ x s); cbn [bind]; [discriminate|].
    intros [= <-]. now apply IH.
  - intros [= <-]. now apply (lt_raises _ _ _ E).
Qed.

(** The sort raises nothing but [TypeError], and only on a list that has a
    naive and an aware datetime. *)
Lemma stable_sort_raises (l : list (Dated.datetime * A)) (e : exn) :
  Dated.stable_sort (fun a b => Dated.lt b a) l = Raise e ->
  e = TypeError /\
  exists x y, In x l /\ In y l /\
              Dated.is_aware (fst x) <> Dated.is_aware (fst y).
Proof.
  intros H. split.
  - revert e H. induction l as [|x l IH]; intros e; cbn [Dated.stable_sort];
      [discriminate|].
    destruct (Dated.stable_sort _ l) as [s|e'] eqn:E; cbn [bind].
    + apply insert_raises.
    + intros [= <-]. now apply IH.
  - destruct l as [|x l]; [discriminate H|].
    destruct (forallb (fun kx => Bool.eqb (Dated.is_aware (fst kx))
                                   (Dated.is_aware (fst x))) (x :: l)) eqn:F.
    + rewrite forallb_forall in F.
      destruct (stable_sort_same_kind (Dated.is_aware (fst x)) (x :: l))
        as (s & Hs & _).
      { apply Forall_forall. intros y Hy. apply Bool.eqb_prop. now apply F. }
      congruence.
    + assert (exists y, In y (x :: l) /\
                        Bool.eqb (Dated.is_aware (fst y))
                          (Dated.is_aware (fst x)) = false) as (y & Hy & Hk).
      { clear H. induction (x :: l) as [|z k IHk]; [discriminate F|].
        cbn [forallb] in F. apply andb_false_iff in F.
        destruct F as [F|F]; [exists z; split; [now left|assumption]|].
        destruct (IHk F) as (y & Hy & Hk). exists y. split; [now right|assumption]. }
      exists y, x. split; [assumption|]. split; [now left|].
      intros Heq. rewrite Heq, Bool.eqb_reflx in Hk. discriminate.
Qed.

Lemma insert_nonempty (x : Dated.datetime * A)
    (s s' : list (Dated.datetime * A)) :
  Dated.insert (fun a b => Dated.lt b a) x s = Ok s' -> s' <> [].
Proof.
  destruct s as [|y s]; cbn [Dated.insert]; [now intros [= <-]|].
  destruct (Dated.lt (fst x) (fst y)) as [c|e']; cbn [bind]; [|discriminate].
  destruct c; [|now intros [= <-]].
  destruct (Dated.insert _ x s); cbn [bind]; [|discriminate].
  now intros [= <-].
Qed.

Lemma stable_sort_nonempty (l s : list (Dated.datetime * A)) :
  l <> [] -> Dated.stable_sort (fun a b => Dated.lt b a) l = Ok s -> s <> [].
Proof.
  destruct l as [|x l]; [congruence|]. intros _. cbn [Dated.stable_sort].
  destruct (Dated.stable_sort _ l); cbn [bind]; [|discriminate].
  apply insert_nonempty.
Qed.
End DatedSort.

Section DatedSteps.
Context {V : Type}.

(** The ranks of a data point with a datetime. *)
Let drank (p : Dated.point V) : nat := rank (Dated.source p).
Let dcrank (p : Dated.point V) : nat :=
  status_rank (status_of (Dated.source p)).

Lemma group_step_embed
    (d : list (ConfirmationStatus.t * list (Dated.point V)))
    (p : Dated.point V) :
  group_step (map_values (map embed) d) (embed p)
  = (d' <- Dated.group_step d p ;; Ok (map_values (map embed) d')).
Proof.
  unfold group_step, Dated.group_step.
  change (source (embed p)) with (Dated.source p).
  rewrite confirmation_status_ok. cbn [bind].
  set (s := status_of (Dated.source p)).
  rewrite contains_map_values.
  assert (forall m d0,
             Dict.set ConfirmationStatus.eqb s (map embed m ++ [embed p])
               (map_values (map embed) d0)
             = map_values (map embed)
                 (Dict.set ConfirmationStatus.eqb s (m ++ [p]) d0)) as Hset.
  { intros m d0.
    rewrite <- (set_map_values ConfirmationStatus.eqb (map embed)).
    now rewrite map_app. }
  destruct (Dict.contains ConfirmationStatus.eqb s d).
  - rewrite get_map_values.
    destruct (Dict.get ConfirmationStatus.eqb s d) as [m|e]; cbn [bind];
      [|reflexivity].
    now rewrite Hset.
  - pose proof (set_map_values ConfirmationStatus.eqb (map embed) s [] d)
      as Hnew.
    cbn [map] in Hnew. rewrite Hnew, get_map_values.
    destruct (Dict.get ConfirmationStatus.eqb s _) as [m|e]; cbn [bind];
      [|reflexivity].
    now rewrite Hset.
Qed.

Lemma for_each_embed (l : list (Dated.point V))
    (d : list (ConfirmationStatus.t * list (Dated.point V))) :
  Py.for_each group_step (map embed l) (map_values (map embed) d)
  = (d' <- Py.for_each Dated.group_step l d ;;
     Ok (map_values (map embed) d')).
Proof.
  revert d. induction l as [|p l IH]; intros d; [reflexivity|].
  cbn [map Py.for_each]. rewrite group_step_embed.
  destruct (Dated.group_step d p) as [d1|e]; cbn [bind]; [|reflexivity].
  apply IH.
Qed.

Lemma map_embed_inj (m m' : list (Dated.point V)) :
  map embed m = map embed m' -> m = m'.
Proof.
  intros H. apply (f_equal (map data)) in H.
  rewrite !map_map in H. cbn [embed data] in H. now rewrite !map_id in H.
Qed.

(** Steps 1 and 2, as for the selection on the time line. *)
Lemma dated_best_group (l : list (Dated.point V)) :
  l <> [] ->
  exists d c,
    Py.for_each Dated.group_step l [] = Ok d /\
    Py.min_by ConfirmationStatus.get_confirmation_priority (Dict.keys d) = Ok c /\
    Dict.get ConfirmationStatus.eqb c d = Ok (best_by dcrank l).
Proof.
  intros Hne.
  destruct (best_group (map embed l)) as (dz & c & Hd & Hc & Hget).
  { destruct l; [congruence|discriminate]. }
  pose proof (for_each_embed l []) as Hsim.
  change (map_values (map embed) []) with (@nil (ConfirmationStatus.t * list (data_point (Dated.point V)))) in Hsim.
  rewrite Hd in Hsim.
  destruct (Py.for_each Dated.group_step l []) as [d|e]; cbn [bind] in Hsim;
    [|discriminate].
  injection Hsim as ->. exists d, c. split; [reflexivity|].
  rewrite keys_map_values in Hc. split; [assumption|].
  rewrite get_map_values in Hget.
  destruct (Dict.get ConfirmationStatus.eqb c d) as [m|e]; cbn [bind] in Hget;
    [|discriminate].
  injection Hget as Hget. f_equal. apply map_embed_inj. rewrite Hget.
  apply (best_by_map confirmation_rank embed l).
Qed.

(** Steps 4 and 5, as for the selection on the time line. *)
Lemma dated_source_step {B : Type} (candidates : list (Dated.point V))
    (k : list (Dated.point V) -> result B) :
  candidates <> [] ->
  (source_priority_candidates <-
     Py.sorted Nat.ltb
       (fun x => DataSource.get_hierarchy_priority (Dated.source x))
       false candidates ;;
   first <- Py.item0 source_priority_candidates ;;
   best_source_priority <-
     DataSource.get_hierarchy_priority (Dated.source first) ;;
   best_source_candidates <-
     Py.filterM
       (fun candidate =>
          p <- DataSource.get_hierarchy_priority (Dated.source candidate) ;;
          Ok (p =? best_source_priority))
       source_priority_candidates ;;
   k best_source_candidates)
  = k (best_by drank candidates).
Proof.
  intros Hne.
  rewrite (sorted_pure Nat.ltb _ drank)
    by (intros; apply hierarchy_priority_ok).
  cbn [bind].
  set (keyed := map (fun x => (drank x, x)) candidates).
  assert (forall y, In y keyed -> fst y = drank (snd y) /\ In (snd y) candidates)
    as Hkeyed.
  { intros y Hy. apply in_map_iff in Hy. destruct Hy as (x & <- & Hx). auto. }
  destruct (stable_sort_head_least keyed) as (h & t & Hs & Hh & Hlow).
  { subst keyed. destruct candidates; [congruence|discriminate]. }
  assert (Py.item0 (map snd (Py.stable_sort Nat.ltb keyed)) = Ok (snd h)) as H0
    by now rewrite Hs.
  rewrite H0. cbn [bind].
  rewrite hierarchy_priority_ok. cbn [bind].
  rewrite (filterM_pure _ (fun c => drank c =? rank (Dated.source (snd h))))
    by (intros; now rewrite hierarchy_priority_ok).
  cbn [bind]. f_equal.
  destruct (Hkeyed h Hh) as [Hfh Hhin].
  change (rank (Dated.source (snd h))) with (drank (snd h)). rewrite <- Hfh.
  rewrite filter_map_swap.
  rewrite (filter_ext_in _ (fun y => fst y =? fst h)).
  - rewrite filter_least_sort by assumption.
    subst keyed. rewrite filter_map_swap. cbn [fst].
    rewrite map_map. cbn [snd]. rewrite map_id.
    symmetry. apply best_by_filter.
    + exists (snd h). split; [assumption|congruence].
    + intros y Hy. apply (Hlow (drank y, y)).
      apply in_map_iff. now exists y.
  - intros y Hy. apply stable_sort_In in Hy.
    destruct (Hkeyed y Hy) as [-> _]. reflexivity.
Qed.

(** Step 7 on datetimes of one kind: the sort does not raise and its first
    member is the latest one, as on the time line. *)
Lemma dated_recency_step (c : list (Dated.point V)) :
  c <> [] -> Dated.comparable c ->
  exists r,
    (final_candidates <-
       Dated.sorted Dated.lt (fun x => Ok (Dated.timestamp x)) true c ;;
     Py.item0 final_candidates) = Ok r /\
    latest_of (map embed c) = Some (embed r).
Proof.
  destruct c as [|x0 c0]; [congruence|]. intros _ Hcmp.
  unfold Dated.sorted.
  rewrite (mapM_pure _ (fun x => (Dated.timestamp x, x))) by reflexivity.
  cbn [bind].
  set (keyed := map (fun x => (Dated.timestamp x, x)) (x0 :: c0)).
  destruct (stable_sort_same_kind (Dated.is_aware (Dated.timestamp x0)) keyed)
    as (s & Hs & _ & Hinst).
  { apply Forall_forall. intros y Hy. apply in_map_iff in Hy.
    destruct Hy as (p & <- & Hp). cbn [fst]. apply Hcmp; [assumption|now left]. }
  rewrite Hs. cbn [bind].
  destruct (stable_sort_head_latest (embed x0) (map embed c0)) as (t & Ht).
  apply (f_equal (map (fun kx => (fst kx, embed (snd kx))))) in Hinst.
  rewrite <- (stable_sort_map_snd (fun a b => Z.ltb b a) embed) in Hinst.
  replace (map (fun kx => (fst kx, embed (snd kx))) (on_instants keyed))
    with (map (fun p => (timestamp p, p)) (embed x0 :: map embed c0)) in Hinst.
  - rewrite Ht in Hinst. destruct s as [|h s]; [discriminate Hinst|].
    cbn [on_instants map fst snd] in Hinst. injection Hinst as _ Hh _.
    exists (snd h). split; [reflexivity|].
    cbn [map latest_of]. now rewrite Hh.
  - subst keyed. unfold on_instants.
    change (embed x0 :: map embed c0) with (map embed (x0 :: c0)).
    rewrite !map_map. reflexivity.
Qed.

(** The selection on datetimes: the members of least source rank among
    those of least confirmation rank, sorted by timestamp when they are
    several. *)
Lemma dated_select_steps (l : list (Dated.point V)) :
  l <> [] ->
  Dated.select_most_relevant_data l
  = (let c := best_by drank (best_by dcrank l) in
     if length c =? 1 then Py.item0 c
     else
       final_candidates <-
         Dated.sorted Dated.lt (fun x => Ok (Dated.timestamp x)) true c ;;
       Py.item0 final_candidates).
Proof.
  intros Hne.
  destruct (dated_best_group l Hne) as (d & c & Hd & Hc & Hget).
  pose proof (best_by_nonempty dcrank l Hne) as Hcand.
  destruct l as [|p0 l0]; [congruence|].
  unfold Dated.select_most_relevant_data.
  rewrite Hd. cbn [bind]. rewrite Hc. cbn [bind]. rewrite Hget. cbn [bind].
  cbv zeta.
  destruct (length (best_by dcrank (p0 :: l0)) =? 1) eqn:L1.
  - destruct (best_by dcrank (p0 :: l0)) as [|x [|y m]]; try discriminate L1.
    cbn. now rewrite Nat.eqb_refl.
  - now rewrite dated_source_step.
Qed.

Lemma best_candidates_In (l : list (Dated.point V)) (x : Dated.point V) :
  In x (best_by drank (best_by dcrank l)) -> In x l.
Proof.
  intros H. apply best_by_In in H. destruct H as [H _].
  apply best_by_In in H. tauto.
Qed.

(** On datetimes of one kind the selection is the selection on the time
    line. *)
Lemma dated_select_comparable (l : list (Dated.point V)) :
  l <> [] -> Dated.comparable l ->
  exists r,
    Dated.select_most_relevant_data l = Ok r /\
    select_most_relevant_data (map embed l) = Ok (embed r).
Proof.
  intros Hne Hcmp. rewrite (dated_select_steps l Hne). cbv zeta.
  destruct (select_cascade (map embed l)) as (q & Hq & Hsel).
  { destruct l; [congruence|discriminate]. }
  rewrite Hsel. unfold cascade in Hq.
  rewrite (best_by_map confirmation_rank embed l) in Hq.
  rewrite (best_by_map source_rank embed) in Hq.
  change (fun a => confirmation_rank (embed a)) with dcrank in Hq.
  change (fun a => source_rank (embed a)) with drank in Hq.
  pose proof (best_by_nonempty drank _ (best_by_nonempty dcrank l Hne)) as Hc.
  set (c := best_by drank (best_by dcrank l)) in *.
  destruct (length c =? 1) eqn:L1.
  - destruct c as [|x [|y m]]; try discriminate L1.
    exists x. split; [reflexivity|]. cbn in Hq. congruence.
  - destruct (dated_recency_step c Hc) as (r & Hr & Hlatest).
    { intros x y Hx Hy. apply Hcmp; now apply best_candidates_In. }
    exists r. split; [assumption|]. congruence.
Qed.

(** The selection on datetimes raises the [ValueError] of the empty input,
    or the [TypeError] of a naive and an aware timestamp met on one source,
    and nothing else. *)
Lemma dated_select_raises (l : list (Dated.point V)) (e : exn) :
  Dated.select_most_relevant_data l = Raise e ->
  (l = [] /\ e = EmptyInput) \/
  (e = TypeError /\
   exists x y, In x l /\ In y l /\ Dated.source x = Dated.source y /\
               Dated.is_aware (Dated.timestamp x)
               <> Dated.is_aware (Dated.timestamp y)).
Proof.
  destruct l as [|p0 l0]; [cbn; intros [= <-]; now left|].
  rewrite dated_select_steps by discriminate. cbv zeta.
  pose proof (best_by_nonempty drank _
                (best_by_nonempty dcrank (p0 :: l0) ltac:(discriminate))) as Hc.
  set (c := best_by drank (best_by dcrank (p0 :: l0))) in *.
  assert (forall x y, In x c -> In y c -> Dated.source x = Dated.source y)
    as Hsrc.
  { intros x y Hx Hy. apply best_by_In in Hx, Hy.
    destruct Hx as [Hx Hlx], Hy as [Hy Hly].
    apply rank_inj. specialize (Hlx y Hy). specialize (Hly x Hx).
    unfold drank in *. lia. }
  destruct (length c =? 1).
  - destruct c; [congruence|discriminate].
  - unfold Dated.sorted.
    rewrite (mapM_pure _ (fun x => (Dated.timestamp x, x))) by reflexivity.
    cbn [bind].
    destruct (Dated.stable_sort _ _) as [s|e'] eqn:Hs; cbn [bind].
    + apply stable_sort_nonempty in Hs; [|destruct c; [congruence|discriminate]].
      destruct s; [congruence|discriminate].
    + intros [= <-]. right.
      destruct (stable_sort_raises _ _ Hs) as (-> & x & y & Hx & Hy & Hk).
      split; [reflexivity|].
      apply in_map_iff in Hx, Hy.
      destruct Hx as (px & <- & Hpx), Hy as (py & <- & Hpy).
      exists px, py. repeat split.
      * now apply best_candidates_In.
      * now apply best_candidates_In.
      * now apply Hsrc.
      * exact Hk.
Qed.
End DatedSteps.

(** A naive and an aware timestamp on one source: step 7 raises. *)
Lemma dated_select_mixed_raises :
  Dated.select_most_relevant_data Dated.mixed_data = Raise TypeError.
Proof. reflexivity. Qed.

(** C1, amended: for every non-empty list of data points whose timestamps
    are all naive or all aware, [select_most_relevant_data] returns a
    value, and this value is a member of the input list, found at the
    position that [select_position] reports. *)
Theorem dated_select_returns_member {V : Type} (l : list (Dated.point V)) :
  l <> [] -> Dated.comparable l ->
  exists r i,
    Dated.select_most_relevant_data l = Ok r /\ In r l /\
    select_position (map embed l) = Ok i /\ nth_error l i = Some r.
Proof.
  intros Hne Hcmp.
  destruct (dated_select_comparable l Hne Hcmp) as (r & Hr & Hz).
  destruct (select_position_spec (map embed l)) as (q & _ & Hpos & Hsel & Hnth).
  { destruct l; [congruence|discriminate]. }
  assert (retag snd q = embed r) as Hq by congruence.
  rewrite Hq, nth_error_map in Hnth.
  destruct (nth_error l (fst (data q))) as [r'|] eqn:Hi; [|discriminate].
  cbn [option_map] in Hnth.
  assert (r' = r) as -> by (injection Hnth; intros; assumption).
  exists r, (fst (data q)). repeat split; try assumption.
  now apply nth_error_In in Hi.
Qed.

Lemma dated_select_returns_member_witness :
  exists r i,
    Dated.select_most_relevant_data Dated.aware_data = Ok r /\
    In r Dated.aware_data /\
    select_position (map embed Dated.aware_data) = Ok i /\
    nth_error Dated.aware_data i = Some r.
Proof.
  apply (dated_select_returns_member Dated.aware_data); [discriminate|].
  intros x y [<-|[<-|[<-|[]]]] [<-|[<-|[<-|[]]]]; reflexivity.
Defined.

(** The same on the most trusted source, with a data point of a lesser
    source in the input. *)
Lemma dated_select_mixed_fails :
  Dated.select_most_relevant_data Dated.mixed_data' = Raise TypeError.
Proof. reflexivity. Qed.

(** C8, amended: for every source tag the rank look-up, the confirmation
    look-up and the rank look-up of the resulting status all succeed, and
    the keys of [SOURCE_TO_CONFIRMATION] are the source tags, once each;
    hence the selection never raises for an unknown or unmapped source.  It
    returns a value on every non-empty input whose timestamps are all naive
    or all aware, and raises nothing but the [ValueError] of the empty
    input and the [TypeError] of a naive and an aware timestamp compared on
    one source. *)
Theorem dated_lookups_never_fail :
  (forall s, exists n c m,
      DataSource.get_hierarchy_priority s = Ok n /\
      DataRules.get_confirmation_status s = Ok c /\
      ConfirmationStatus.get_confirmation_priority c = Ok m) /\
  (forall s, In s (Dict.keys DataRules.SOURCE_TO_CONFIRMATION)) /\
  NoDup (Dict.keys DataRules.SOURCE_TO_CONFIRMATION) /\
  (forall (V : Type) (l : list (Dated.point V)),
      l <> [] -> Dated.comparable l ->
      exists r, Dated.select_most_relevant_data l = Ok r) /\
  (forall (V : Type) (l : list (Dated.point V)) (e : exn),
      Dated.select_most_relevant_data l = Raise e ->
      (l = [] /\ e = EmptyInput) \/
      (e = TypeError /\
       exists x y, In x l /\ In y l /\ Dated.source x = Dated.source y /\
                   Dated.is_aware (Dated.timestamp x)
                   <> Dated.is_aware (Dated.timestamp y))) /\
  (forall (V : Type) (l : list (Dated.point V)),
      Dated.select_most_relevant_data l <> Raise UnknownSource /\
      Dated.select_most_relevant_data l <> Raise UnmappedSource).
Proof.
  repeat match goal with |- _ /\ _ => split end.
  - intros s. exists (rank s), (status_of s), (status_rank (status_of s)).
    split; [apply hierarchy_priority_ok|].
    split; [apply confirmation_status_ok|apply confirmation_priority_ok].
  - intros []; cbn; tauto.
  - cbn. repeat constructor; cbn; intuition discriminate.
  - intros V l Hne Hcmp.
    destruct (dated_select_comparable l Hne Hcmp) as (r & Hr & _). eauto.
  - intros V l e. apply dated_select_raises.
  - intros V l.
    split; intros H; apply dated_select_raises in H;
      destruct H as [[_ H]|[H _]]; discriminate H.
Qed.

Lemma dated_lookups_never_fail_witness :
  exists r, Dated.select_most_relevant_data Dated.aware_data = Ok r.
Proof.
  destruct dated_lookups_never_fail as (_ & _ & _ & Hsel & _).
  apply (Hsel Z Dated.aware_data); [discriminate|].
  intros x y [<-|[<-|[<-|[]]]] [<-|[<-|[<-|[]]]]; reflexivity.
Defined.

Example dated_select_aware_data :
  Dated.select_most_relevant_data Dated.aware_data
  = Ok (Dated.mk_point 2%Z DataSource.ROSSTAT (Dated.Aware 7)).
Proof. reflexivity. Qed.
